(** * MRSA instance generator: sizing estimator and demand allocator

    A shallow embedding of [instances_generator.py].  The script reads
    topologies [(n, m)], sweeps over slot counts, percentages and spreads,
    and for every combination writes one text file of randomly drawn
    point-to-multipoint demands.

    Python integers are [Z].  Python floats are IEEE-754 binary64 values,
    taken from the specification of floating-point arithmetic of the
    standard library ([spec_float], precision 53, [emax] 1024), so every
    float operation below rounds exactly as the interpreter does.  Python
    exceptions are the [Raise] branch of [result].  The [random] module and
    the other pieces of the run-time library the script calls are the
    fields of the class [PyRuntime], with their documented contracts. *)

From Stdlib Require Import ZArith List Bool Lia String Ascii Permutation FinFun.
From Stdlib Require Import QArith Qpower Qround Lqa.
From Stdlib Require Import Floats.SpecFloat DecimalString.
From Stdlib Require DecimalZ.
Import ListNotations.
Local Open Scope Z_scope.

(** ** Exceptions and results *)

Inductive exn : Type :=
| ZeroDivisionError
| OverflowError
| ValueError
| KeyError
| IndexError
| TypeError
| SystemExit (code : Z) (msg : string).

Inductive result (A : Type) : Type :=
| OK (a : A)
| Raise (e : exn).

Arguments OK {A} a.
Arguments Raise {A} e.

Definition bind {A B : Type} (r : result A) (k : A -> result B) : result B :=
  match r with
  | OK a => k a
  | Raise e => Raise e
  end.

Notation "x <- r ;; k" := (bind r (fun x => k))
  (at level 61, r at next level, right associativity).
Notation "' p <- r ;; k" := (bind r (fun x => let 'p := x in k))
  (at level 61, p pattern, r at next level, right associativity).

(** ** Python floats *)

Module F64.

Definition prec : Z := 53.
Definition emax : Z := 1024.

Definition float : Type := spec_float.

Definition mul : float -> float -> float := SFmul prec emax.
Definition div : float -> float -> float := SFdiv prec emax.
Definition sub : float -> float -> float := SFsub prec emax.
Definition ltb : float -> float -> bool := SFltb.
Definition leb : float -> float -> bool := SFleb.

(** The nearest double of an integer (ties to even). *)
Definition of_Z (z : Z) : float := binary_normalize prec emax z 0 false.

(** An integer as an unrounded significand with exponent 0. *)
Definition exact_of_Z (z : Z) : float :=
  match z with
  | Z0 => S754_zero false
  | Zpos p => S754_finite false p 0
  | Zneg p => S754_finite true p 0
  end.

(** The literals of the script. *)
Definition half : float := S754_finite false 4503599627370496 (-53).
Definition one : float := S754_finite false 4503599627370496 (-52).
Definition two : float := S754_finite false 4503599627370496 (-51).
Definition ten : float := S754_finite false 5629499534213120 (-49).
Definition c_0_001 : float := S754_finite false 4611686018427388 (-62).

Definition is_finite (x : float) : bool :=
  match x with
  | S754_zero _ | S754_finite _ _ _ => true
  | _ => false
  end.

Definition is_zero (x : float) : bool :=
  match x with
  | S754_zero _ => true
  | _ => false
  end.

Definition signed (s : bool) (m : positive) : Z :=
  if s then Zneg m else Zpos m.

(** Rounding a finite double [m * 2^e] to an integer. *)
Definition floor_fin (s : bool) (m : positive) (e : Z) : Z :=
  if 0 <=? e then signed s m * 2 ^ e else signed s m / 2 ^ (- e).

Definition ceil_fin (s : bool) (m : positive) (e : Z) : Z :=
  if 0 <=? e then signed s m * 2 ^ e else - ((- signed s m) / 2 ^ (- e)).

Definition trunc_fin (s : bool) (m : positive) (e : Z) : Z :=
  if 0 <=? e then signed s m * 2 ^ e else Z.quot (signed s m) (2 ^ (- e)).

End F64.

Import F64.

(** [float(z)] for a Python int: [OverflowError] when [z] is too large. *)
Definition int_to_float (z : Z) : result float :=
  let f := of_Z z in
  if is_finite f then OK f else Raise OverflowError.

(** [x / y] on floats. *)
Definition float_div (x y : float) : result float :=
  if is_zero y then Raise ZeroDivisionError else OK (div x y).

(** [a / b] on ints: the correctly rounded quotient. *)
Definition int_true_div (a b : Z) : result float :=
  if b =? 0 then Raise ZeroDivisionError
  else
    let q := div (exact_of_Z a) (exact_of_Z b) in
    if is_finite q then OK q else Raise OverflowError.

(** [int(x)] on a float: truncation toward zero. *)
Definition py_int (x : float) : result Z :=
  match x with
  | S754_zero _ => OK 0
  | S754_finite s m e => OK (trunc_fin s m e)
  | S754_infinity _ => Raise OverflowError
  | S754_nan => Raise ValueError
  end.

Definition math_floor (x : float) : result Z :=
  match x with
  | S754_zero _ => OK 0
  | S754_finite s m e => OK (floor_fin s m e)
  | S754_infinity _ => Raise OverflowError
  | S754_nan => Raise ValueError
  end.

Definition math_ceil (x : float) : result Z :=
  match x with
  | S754_zero _ => OK 0
  | S754_finite s m e => OK (ceil_fin s m e)
  | S754_infinity _ => Raise OverflowError
  | S754_nan => Raise ValueError
  end.

(** A float against an int: the interpreter compares the exact values. *)
Definition float_cmp_Z (x : float) (z : Z) : option comparison :=
  match x with
  | S754_nan => None
  | S754_infinity s => Some (if s then Lt else Gt)
  | S754_zero _ => Some (0 ?= z)
  | S754_finite s m e =>
      Some (if 0 <=? e then signed s m * 2 ^ e ?= z
            else signed s m ?= z * 2 ^ (- e))
  end.

Definition float_gt_Z (x : float) (z : Z) : bool :=
  match float_cmp_Z x z with Some Gt => true | _ => false end.

Definition float_lt_Z (x : float) (z : Z) : bool :=
  match float_cmp_Z x z with Some Lt => true | _ => false end.

Definition float_le_Z (x : float) (z : Z) : bool :=
  match float_cmp_Z x z with Some Lt | Some Eq => true | _ => false end.

(** ** The sizing estimator *)

(** [2.*m/(n*(n-1))] *)
Definition calculateGraphDensity (n m : Z) : result float :=
  mf <- int_to_float m ;;
  let num := mul two mf in
  den <- int_to_float (n * (n - 1)) ;;
  float_div num den.

(** [int((n-1.) * d * S/(max_sd))] *)
Definition calculateMaxNumberOfDemands (n m S max_sd : Z) : result Z :=
  d <- calculateGraphDensity n m ;;
  nf <- int_to_float n ;;
  let a := sub nf one in
  let b := mul a d in
  sf <- int_to_float S ;;
  let c := mul b sf in
  xf <- int_to_float max_sd ;;
  q <- float_div c xf ;;
  py_int q.

(** [int(max(1, nT * args.density))]: [max] keeps the int [1] unless the
    float is strictly greater. *)
Definition scaled_budget (nT_raw : Z) (density : float) : result Z :=
  nf <- int_to_float nT_raw ;;
  let x := mul nf density in
  if float_gt_Z x 1 then py_int x else OK 1.

(** Lines 184-185 of the script. *)
Definition demand_budget (n m S max_sd : Z) (density : float) : result Z :=
  nT_raw <- calculateMaxNumberOfDemands n m S max_sd ;;
  scaled_budget nT_raw density.

(** ** The run-time library *)

Definition between (a x b : float) : Prop :=
  (leb a x = true /\ leb x b = true) \/ (leb b x = true /\ leb x a = true).

Definition nonneg_finite (x : float) : Prop :=
  match x with
  | S754_zero _ | S754_finite false _ _ => True
  | _ => False
  end.

(** What the script uses of the interpreter's library: the generator of the
    [random] module with state [G], [math.pow(x, -1)], the order in which a
    [set] built from a list is iterated, and [np.arange(.1, .9, .1)]. *)
Class PyRuntime (G : Type) : Type := {
  (** [random.seed(a)], called on a generator in any state *)
  rnd_seed : Z -> G -> G;
  (** [random.sample(population, k)] *)
  rnd_sample : list Z -> Z -> G -> result (list Z * G);
  (** [random.uniform(a, b)], that is [a + (b-a) * random()] *)
  rnd_uniform : float -> float -> G -> float * G;
  (** [random.randint(a, b)] *)
  rnd_randint : Z -> Z -> G -> result (Z * G);
  (** [math.pow(x, -1)] *)
  math_pow_neg1 : float -> result float;
  (** [list(set(l))] *)
  set_iter_Z : list Z -> list Z;
  set_iter_float : list float -> list float;
  (** [np.arange(.1, .9, .1)] *)
  np_default_percents : list float;

  seed_resets : forall a g g', rnd_seed a g = rnd_seed a g';
  sample_total : forall pop k g,
    0 <= k <= Z.of_nat (List.length pop) ->
    exists l g', rnd_sample pop k g = OK (l, g');
  sample_error : forall pop k g,
    ~ 0 <= k <= Z.of_nat (List.length pop) ->
    rnd_sample pop k g = Raise ValueError;
  sample_inv : forall pop k g l g',
    rnd_sample pop k g = OK (l, g') ->
    Z.of_nat (List.length l) = k /\ exists rest, Permutation (l ++ rest) pop;
  uniform_between : forall a b g,
    nonneg_finite a -> nonneg_finite b ->
    between a (fst (rnd_uniform a b g)) b;
  uniform_not_finite : forall a b g,
    is_finite a && is_finite b = false ->
    is_finite (fst (rnd_uniform a b g)) = false;
  randint_total : forall a b g,
    a <= b -> exists r g', rnd_randint a b g = OK (r, g');
  randint_inv : forall a b g r g',
    rnd_randint a b g = OK (r, g') -> a <= r <= b;
  pow_neg1_one : math_pow_neg1 one = OK one;
  set_iter_Z_In : forall l x, In x (set_iter_Z l) <-> In x l;
  set_iter_float_In : forall l x, In x (set_iter_float l) -> In x l
}.

(** ** The demand allocator *)

Record demand : Type := {
  d_src : Z;
  d_nDst : Z;
  d_dsts : list Z;
  d_slots : Z
}.

Record loop_state (G : Type) : Type := {
  remainingT : Z;
  lines : list demand;
  nD : Z;
  rng : G
}.

Arguments remainingT {G} _.
Arguments lines {G} _.
Arguments nD {G} _.
Arguments rng {G} _.

(** [range(n)] *)
Definition range (n : Z) : list Z := map Z.of_nat (seq 0 (Z.to_nat n)).

(** [[dst for dst in range(n) if dst != src]] *)
Definition others (n src : Z) : list Z :=
  filter (fun dst => negb (dst =? src)) (range n).

(** The test [spInv - 1 > 0.001]. *)
Definition multi_destination (spInv : float) : bool :=
  ltb c_0_001 (sub spInv one).

Section Allocator.

Context {G : Type} `{PyRuntime G}.

(** [nDst] before the clamps (lines 207-209). *)
Definition draw_candidate (spInv : float) (g : G) : result (Z * G) :=
  if multi_destination spInv then
    let '(u, g') := rnd_uniform (mul half spInv) (mul two spInv) g in
    k <- math_ceil u ;;
    OK (k, g')
  else OK (1, g).

(** [s = max(1, random.randint(math.floor(max_sd/2), max_sd))] *)
Definition draw_slots (max_sd : Z) (g : G) : result (Z * G) :=
  h <- int_true_div max_sd 2 ;;
  lo <- math_floor h ;;
  '(s, g') <- rnd_randint lo max_sd g ;;
  OK (Z.max 1 s, g').

(** One pass through the body of the [while] loop (lines 204-225). *)
Definition iteration (n max_sd : Z) (spInv : float) (st : loop_state G)
  : result (loop_state G) :=
  let nD' := nD st + 1 in
  '(l, g1) <- rnd_sample (range n) 1 (rng st) ;;
  match l with
  | [src] =>
      '(cand, g2) <- draw_candidate spInv g1 ;;
      let nDst := Z.min (remainingT st) cand in
      let nDst := Z.min (n - 1) nDst in
      let remaining' := remainingT st - nDst in
      '(dsts, g3) <- rnd_sample (others n src) nDst g2 ;;
      '(s, g4) <- draw_slots max_sd g3 ;;
      OK {| remainingT := remaining';
            lines := lines st ++ [{| d_src := src; d_nDst := nDst;
                                     d_dsts := dsts; d_slots := s |}];
            nD := nD';
            rng := g4 |}
  | _ => Raise ValueError
  end.

(** [while remainingT > 0: ...], at most [fuel] passes; [None] when the
    loop is still running after them. *)
Fixpoint while_loop (fuel : nat) (n max_sd : Z) (spInv : float)
    (st : loop_state G) : option (result (loop_state G)) :=
  if 0 <? remainingT st then
    match fuel with
    | O => None
    | S fuel' =>
        match iteration n max_sd spInv st with
        | OK st' => while_loop fuel' n max_sd spInv st'
        | Raise e => Some (Raise e)
        end
    end
  else Some (OK st).

Definition initial_state (nT : Z) (g : G) : loop_state G :=
  {| remainingT := nT; lines := []; nD := 0; rng := g |}.

Definition allocate (fuel : nat) (n max_sd : Z) (spInv : float) (nT : Z)
    (g : G) : option (result (loop_state G)) :=
  while_loop fuel n max_sd spInv (initial_state nT g).

End Allocator.

Definition sum_nDst (ds : list demand) : Z :=
  fold_right (fun d acc => d_nDst d + acc) 0 ds.

Definition max_nDst (ds : list demand) : Z :=
  fold_right (fun d acc => Z.max (d_nDst d) acc) 0 ds.

(** A well-formed demand on a topology of [n] nodes. *)
Definition good_demand (n : Z) (d : demand) : Prop :=
  0 <= d_src d < n /\
  ~ In (d_src d) (d_dsts d) /\
  NoDup (d_dsts d) /\
  Z.of_nat (List.length (d_dsts d)) = d_nDst d /\
  (forall x, In x (d_dsts d) -> 0 <= x < n).

(** The fan-out interval [0.5*spInv, 2*spInv] is made of finite doubles,
    or is not used at all. *)
Definition fanout_ok (spInv : float) : bool :=
  negb (multi_destination spInv) ||
  (is_finite (mul half spInv) && is_finite (mul two spInv)).

(** ** Command-line parameters *)

Record arguments : Type := {
  arg_seed : Z;
  arg_slots : option (list Z);
  arg_percents : option (list float);
  arg_density : float;
  arg_spread : list float
}.

Record sweep : Type := {
  avaliable_S : list Z;
  max_percentages_of_slots_by_demand : list float;
  spreads : list float
}.

Definition default_slots : list Z :=
  [10; 15; 20; 30; 40; 60; 80; 100; 150; 200; 300; 400; 600; 800; 1000].

(** [error(err)]: prints the message and leaves with status 1. *)
Definition error {A : Type} (err : string) : result A :=
  Raise (SystemExit 1 (String.append "ERROR: " err)).

(** [0 < x < 10] and [0 < x <= 1] on a float. *)
Definition density_in_range (x : float) : bool :=
  float_gt_Z x 0 && float_lt_Z x 10.

Definition in_unit_interval (x : float) : bool :=
  float_gt_Z x 0 && float_le_Z x 1.

Section Parameters.

Context {G : Type} `{PyRuntime G}.

(** Lines 134-149. *)
Definition check_parameters (a : arguments) : result sweep :=
  if negb (density_in_range (arg_density a)) then
    error "Demands density must be in (0, 10)"
  else
    OK {| avaliable_S :=
            match arg_slots a with
            | None => default_slots
            | Some l => filter (fun s => 0 <? s) (set_iter_Z l)
            end;
          max_percentages_of_slots_by_demand :=
            match arg_percents a with
            | None => np_default_percents
            | Some l => filter in_unit_interval (set_iter_float l)
            end;
          spreads := filter in_unit_interval (set_iter_float (arg_spread a)) |}.

End Parameters.

(** ** The instance files *)

Definition tab : string := String (ascii_of_nat 9) EmptyString.
Definition newline : string := String (ascii_of_nat 10) EmptyString.
Definition sep : string := tab.

(** [str(z)] *)
Definition str (z : Z) : string := NilZero.string_of_int (Z.to_int z).

(** [line_enter.format(...)] *)
Definition line_enter (s : string) : string := String.append s newline.

Definition cat (l : list string) : string := String.concat EmptyString l.

(** One line per demand: [src nDst dst_1 ... dst_nDst slots], tab-separated. *)
Definition demand_line (d : demand) : string :=
  line_enter (cat [str (d_src d); sep; str (d_nDst d); sep;
                   String.concat sep (map str (d_dsts d)); sep;
                   str (d_slots d)]).

Definition header (seed : Z) : string :=
  cat [line_enter "# Created by Marcelo Bianchetti";
       line_enter "# Version: 1.0.0";
       line_enter (String.append "# Seed: " (str seed));
       line_enter "# Format:";
       line_enter "#   First line: S  |D|";
       line_enter "#   Other lines: <src #dst dst_1 dst_2 ... dst_#dst #slots>"].

(** What is written once the loop has finished (lines 227-231). *)
Definition body (S : Z) (nD : Z) (ds : list demand) : string :=
  String.append (line_enter (cat [str S; sep; str nD]))
                (cat (map demand_line ds)).

(** A file is named after the topology, [S], [max_sd], [nT] and the spread,
    in the directory of its percentage. *)
Record file : Type := {
  f_percentage : float;
  f_top : string;
  f_S : Z;
  f_max_sd : Z;
  f_nT : Z;
  f_spread : float;
  f_text : string
}.

Record topology : Type := {
  top_name : string;
  top_n : Z;
  top_m : Z
}.

Inductive status (G : Type) : Type :=
| Done (g : G)
| Failed (e : exn)
| Diverged.

Arguments Done {G} g.
Arguments Failed {G} e.
Arguments Diverged {G}.

Section Generation.

Context {G : Type} `{PyRuntime G}.

(** [max_sd] and [nT] of one combination (lines 182-185). *)
Definition instance_size (percentage : float) (t : topology) (S : Z)
    (density : float) : result (Z * Z) :=
  sf <- int_to_float S ;;
  max_sd <- math_ceil (mul percentage sf) ;;
  nT <- demand_budget (top_n t) (top_m t) S max_sd density ;;
  OK (max_sd, nT).

(** The body of the innermost [for] (lines 182-231): the files it leaves
    behind and how it ended.  The loop runs for at most [fuel] passes. *)
Definition write_instance (fuel : nat) (seed : Z) (density : float)
    (percentage : float) (t : topology) (S : Z) (sp : float) (g : G)
  : list file * status G :=
  match instance_size percentage t S density with
  | Raise e => ([], Failed e)
  | OK (max_sd, nT) =>
      let named text :=
        {| f_percentage := percentage; f_top := top_name t; f_S := S;
           f_max_sd := max_sd; f_nT := nT; f_spread := sp;
           f_text := text |} in
      match math_pow_neg1 sp with
      | Raise e => ([named (header seed)], Failed e)
      | OK spInv =>
          match allocate fuel (top_n t) max_sd spInv nT g with
          | None => ([named (header seed)], Diverged)
          | Some (Raise e) => ([named (header seed)], Failed e)
          | Some (OK st) =>
              ([named (String.append (header seed)
                                     (body S (nD st) (lines st)))],
               Done (rng st))
          end
      end
  end.

(** The four nested [for] loops, one generator threaded through all. *)
Fixpoint run_tasks (fuel : nat) (seed : Z) (density : float)
    (tasks : list (float * topology * Z * float)) (g : G)
  : list file * status G :=
  match tasks with
  | [] => ([], Done g)
  | (percentage, t, slots, sp) :: rest =>
      match write_instance fuel seed density percentage t slots sp g with
      | (fs, Done g') =>
          let '(fs', st) := run_tasks fuel seed density rest g' in
          (fs ++ fs', st)
      | (fs, st) => (fs, st)
      end
  end.

Definition tasks_of (sw : sweep) (tops : list topology)
  : list (float * topology * Z * float) :=
  flat_map (fun percentage =>
    flat_map (fun t =>
      flat_map (fun S =>
        map (fun sp => (percentage, t, S, sp)) (spreads sw))
        (avaliable_S sw))
      tops)
    (max_percentages_of_slots_by_demand sw).

(** The script from [random.seed] on, started with the generator in the
    state [ambient]; [tops] is what [os.listdir] and [readTopologyData]
    yield. *)
Definition main (fuel : nat) (ambient : G) (a : arguments)
    (tops : list topology) : list file * status G :=
  let g := rnd_seed (arg_seed a) ambient in
  match check_parameters a with
  | Raise e => ([], Failed e)
  | OK sw => run_tasks fuel (arg_seed a) (arg_density a) (tasks_of sw tops) g
  end.

End Generation.

(** ** The other functions of the script *)

(** [used_dict]: for each node, the nodes already paired with it. *)
Definition used_dict : Type := list (Z * list Z).

(** [used_dict[k]], [None] standing for a missing key. *)
Fixpoint dict_get (d : used_dict) (k : Z) : option (list Z) :=
  match d with
  | [] => None
  | (k', v) :: d' => if k =? k' then Some v else dict_get d' k
  end.

Section GetPair.

Context {G : Type} `{PyRuntime G}.

(** [src, dst = random.sample(range(n), 2)] *)
Definition sample_pair (n : Z) (g : G) : result (Z * Z * G) :=
  '(l, g') <- rnd_sample (range n) 2 g ;;
  match l with
  | [src; dst] => OK (src, dst, g')
  | _ => Raise ValueError
  end.

(** [while dst in used_dict[src]: src, dst = random.sample(range(n), 2)],
    at most [fuel] new draws. *)
Fixpoint getPair_loop (fuel : nat) (n : Z) (used : used_dict) (src dst : Z)
    (g : G) : option (result (Z * Z * G)) :=
  match dict_get used src with
  | None => Some (Raise KeyError)
  | Some l =>
      if existsb (Z.eqb dst) l then
        match fuel with
        | O => None
        | S fuel' =>
            match sample_pair n g with
            | OK (src', dst', g') => getPair_loop fuel' n used src' dst' g'
            | Raise e => Some (Raise e)
            end
        end
      else Some (OK (src, dst, g))
  end.

Definition getPair (fuel : nat) (n : Z) (used : option used_dict) (g : G)
  : option (result (Z * Z * G)) :=
  match sample_pair n g with
  | Raise e => Some (Raise e)
  | OK (src, dst, g') =>
      match used with
      | None => Some (OK (src, dst, g'))
      | Some d => getPair_loop fuel n d src dst g'
      end
  end.

End GetPair.

(** Text is a sequence of code points below 256.  [str.isspace]: *)
Definition is_space (c : ascii) : bool :=
  let k := nat_of_ascii c in
  ((9 <=? k) && (k <=? 13) || (28 <=? k) && (k <=? 32) ||
   (k =? 133) || (k =? 160))%nat.

Definition is_digit (c : ascii) : bool :=
  let k := nat_of_ascii c in ((48 <=? k) && (k <=? 57))%nat.

Definition digit_value (c : ascii) : Z := Z.of_nat (nat_of_ascii c) - 48.

(** [line.startswith('#')] *)
Definition startswith_hash (line : string) : bool :=
  match line with
  | String c _ => Ascii.eqb c (ascii_of_nat 35)
  | EmptyString => false
  end.

(** [line.split()]: the maximal runs of non-blank characters; [tok] is the
    run being read. *)
Fixpoint split_from (s : string) (tok : option string) : list string :=
  match s with
  | EmptyString =>
      match tok with
      | Some t => [t]
      | None => []
      end
  | String c s' =>
      if is_space c then
        match tok with
        | Some t => t :: split_from s' None
        | None => split_from s' None
        end
      else
        split_from s' (Some (String.append
                               (match tok with Some t => t | None => EmptyString end)
                               (String c EmptyString)))
  end.

Definition split (s : string) : list string := split_from s None.

(** [s.strip()] *)
Fixpoint lstrip (s : string) : string :=
  match s with
  | String c s' => if is_space c then lstrip s' else s
  | EmptyString => EmptyString
  end.

Fixpoint rstrip (s : string) : string :=
  match s with
  | String c s' =>
      match rstrip s' with
      | EmptyString => if is_space c then EmptyString else String c EmptyString
      | r => String c r
      end
  | EmptyString => EmptyString
  end.

Definition strip (s : string) : string := rstrip (lstrip s).

(** The digits of a decimal literal, single underscores allowed between
    two digits; [after_digit] tells whether the last character read was a
    digit. *)
Fixpoint digits_from (s : string) (acc : Z) (after_digit : bool) : option Z :=
  match s with
  | EmptyString => if after_digit then Some acc else None
  | String c s' =>
      if is_digit c then digits_from s' (10 * acc + digit_value c) true
      else if Ascii.eqb c (ascii_of_nat 95) then
        (if after_digit then digits_from s' acc false else None)
      else None
  end.

(** [int(s)] on a string. *)
Definition int_of_str (s : string) : result Z :=
  let t := strip s in
  let '(negative, body) :=
    match t with
    | String c r =>
        if Ascii.eqb c (ascii_of_nat 45) then (true, r)
        else if Ascii.eqb c (ascii_of_nat 43) then (false, r)
        else (false, t)
    | EmptyString => (false, t)
    end in
  match digits_from body 0 false with
  | Some v => OK (if negative then - v else v)
  | None => Raise ValueError
  end.

(** [readTopologyData], on the lines of the file; the function falls off
    its end, returning [None], when every line is a comment. *)
Fixpoint readTopologyData (file_lines : list string) : result (option (Z * Z)) :=
  match file_lines with
  | [] => OK None
  | line :: rest =>
      if startswith_hash line then readTopologyData rest
      else
        match split line with
        | [] => Raise IndexError
        | t0 :: ts =>
            n <- int_of_str t0 ;;
            match ts with
            | [] => Raise IndexError
            | t1 :: _ => m <- int_of_str t1 ;; OK (Some (n, m))
            end
        end
  end.

(** [n, m = readTopologyData(topologies_dir, top_fname)] *)
Definition read_topology (file_lines : list string) : result (Z * Z) :=
  r <- readTopologyData file_lines ;;
  match r with
  | Some nm => OK nm
  | None => Raise TypeError
  end.

(** ** A small run-time library to execute the model

    A linear congruential generator stands for the Mersenne Twister: a
    sample is a rotation of the population cut to length, a uniform draw
    is one of the two end points, an integer draw is reduced into its
    range. *)

Definition toy_next (g : Z) : Z := (g * 1103515245 + 12345) mod 2147483648.

Definition rotate {A : Type} (k : nat) (l : list A) : list A :=
  skipn k l ++ firstn k l.

Definition toy_sample (pop : list Z) (k : Z) (g : Z) : result (list Z * Z) :=
  if (0 <=? k) && (k <=? Z.of_nat (List.length pop)) then
    OK (firstn (Z.to_nat k)
               (rotate (Z.to_nat (g mod Z.of_nat (List.length pop))) pop),
        toy_next g)
  else Raise ValueError.

Definition toy_uniform (a b : float) (g : Z) : float * Z :=
  (if is_finite a && is_finite b then (if Z.even (g / 65536) then a else b)
   else S754_nan,
   toy_next g).

Definition toy_randint (a b : Z) (g : Z) : result (Z * Z) :=
  if a <=? b then OK (a + g mod (b - a + 1), toy_next g)
  else Raise ValueError.

Definition toy_pow_neg1 (x : float) : result float :=
  if is_zero x then Raise ValueError
  else
    let r := div one x in
    if is_finite r then OK r else Raise OverflowError.

Definition toy_percents : list float :=
  [div (of_Z 1) (of_Z 10); div (of_Z 1) (of_Z 2)].

(** ** Bounds on doubles

    [ub K x] reads "|x| is at most 2^K", [lb K x] reads "|x| is at least
    2^K"; both are stated on the significand. *)

Definition ub (K : Z) (x : float) : Prop :=
  match x with
  | S754_zero _ => True
  | S754_finite _ m e => e <= K /\ Zpos m <= 2 ^ (K - e)
  | _ => False
  end.

Definition lb (K : Z) (x : float) : Prop :=
  match x with
  | S754_finite _ m e => 2 ^ (K - e) <= Zpos m
  | S754_infinity _ => True
  | _ => False
  end.

Definition nonneg (x : float) : Prop :=
  match x with
  | S754_zero _ | S754_finite false _ _ | S754_infinity false => True
  | _ => False
  end.

Definition positive_float (x : float) : Prop :=
  match x with
  | S754_finite false _ _ | S754_infinity false => True
  | _ => False
  end.

Definition pos_finite (x : float) : Prop :=
  match x with
  | S754_finite false _ _ => True
  | _ => False
  end.

Definition has_sign (s : bool) (x : float) : Prop :=
  match x with
  | S754_zero s' | S754_finite s' _ _ | S754_infinity s' => s' = s
  | S754_nan => False
  end.

(** The exponent function of binary64 and the value [binary_round_aux]
    ends on. *)
Definition fexp64 (e : Z) : Z := Z.max (e - 53) (-1074).

Definition rounded (s : bool) (m e : Z) : float :=
  match m with
  | Z0 => S754_zero s
  | Zpos p => if e <=? 971 then S754_finite s p e else S754_infinity s
  | Zneg _ => S754_nan
  end.

Definition inex (l : location) : Z :=
  match l with loc_Exact => 0 | loc_Inexact _ => 1 end.

Definition upper (mrs : shr_record) : Z :=
  shr_m mrs + inex (loc_of_shr_record mrs).

(** ** Doubles as exact rationals *)


(** One rounding: the factor 1 + 2^-52. *)
Definition u : Q := 4503599627370497 # 4503599627370496.



(** ** What the statements below are about *)

(** [x] is not below zero (it may be NaN). *)
Definition not_neg (x : float) : Prop :=
  match x with
  | S754_finite true _ _ | S754_infinity true => False
  | _ => True
  end.




Section Passes.

Context {G : Type}.

(** What one pass appends and how it moves the counters. *)
Definition pass (n max_sd : Z) (spInv : float) (st st' : loop_state G)
    (d : demand) : Prop :=
  lines st' = lines st ++ [d] /\
  nD st' = nD st + 1 /\
  remainingT st' = remainingT st - d_nDst d /\
  1 <= d_nDst d <= Z.min (remainingT st) (n - 1) /\
  good_demand n d /\
  (1 <= max_sd -> 1 <= d_slots d <= max_sd) /\
  (multi_destination spInv = false -> d_nDst d = 1) /\
  (remainingT st = 1 -> d_nDst d = 1).

(** The state of the counters during a run that started with budget [nT]. *)
Definition accounted (n nT : Z) (st : loop_state G) : Prop :=
  0 <= remainingT st /\
  sum_nDst (lines st) + remainingT st = nT /\
  nD st = Z.of_nat (List.length (lines st)) /\
  Forall (fun d => 1 <= d_nDst d <= n - 1) (lines st).

End Passes.



Definition file_key (f : file) : float * string * Z * float :=
  (f_percentage f, f_top f, f_S f, f_spread f).

Definition task_key (t : float * topology * Z * float)
  : float * string * Z * float :=
  let '(percentage, top, slots, sp) := t in (percentage, top_name top, slots, sp).

Section Sweeps.

Context {G : Type} `{PyRuntime G}.




End Sweeps.


Definition small_topology : topology :=
  {| top_name := "net"; top_n := 4; top_m := 3 |}.

(** ** What the further properties are about *)

(** A file written to its end: the header, the line [S |D|] and |D| >= 1
    demand lines whose destination counts add up to the [nT] of the file
    name. *)
Definition complete_file (seed : Z) (f : file) : Prop :=
  exists ds,
    ds <> [] /\
    f_text f = String.append (header seed)
                 (body (f_S f) (Z.of_nat (List.length ds)) ds) /\
    sum_nDst ds = f_nT f /\
    Forall (fun d => ~ In (d_src d) (d_dsts d) /\ NoDup (d_dsts d) /\
                     Z.of_nat (List.length (d_dsts d)) = d_nDst d /\
                     1 <= d_nDst d /\
                     1 <= d_slots d <= Z.max 1 (f_max_sd f)) ds.

(** A file the run was aborted in: the header and nothing else. *)
Definition header_only (seed : Z) (f : file) : Prop :=
  f_text f = header seed.

(** A run over two slot counts and one topology, for the examples. *)
Definition ring_topology : topology :=
  {| top_name := "ring"; top_n := 5; top_m := 5 |}.

Definition two_slot_counts : arguments :=
  {| arg_seed := 7; arg_slots := Some [10; 20]; arg_percents := Some [half];
     arg_density := two; arg_spread := [one] |}.

(** Every character of [s] passes the test [p]. *)
Fixpoint string_forall (p : ascii -> bool) (s : string) : bool :=
  match s with
  | EmptyString => true
  | String c s' => p c && string_forall p s'
  end.

(** A character of a printed integer. *)
Definition is_sign_or_digit (c : ascii) : bool :=
  is_digit c || Ascii.eqb c (ascii_of_nat 45).

(** The line [n m], as a topology file gives the two counts. *)
Definition topology_line (n m : Z) : string :=
  String.append (str n)
    (String (ascii_of_nat 32) (String.append (str m) newline)).

(** ** The small run-time library meets the contracts *)

Lemma rotate_perm {A : Type} (k : nat) (l : list A) : Permutation (rotate k l) l.
Proof.
  unfold rotate. rewrite Permutation_app_comm. now rewrite firstn_skipn.
Qed.

Lemma rotate_length {A : Type} (k : nat) (l : list A) :
  List.length (rotate k l) = List.length l.
Proof. apply Permutation_length, rotate_perm. Qed.

Lemma leb_refl_nonneg (a : float) : nonneg_finite a -> leb a a = true.
Proof.
  destruct a as [s | s | | [ | ] m e]; simpl; try tauto. intros _.
  unfold leb, SFleb, SFcompare.
  now rewrite Z.compare_refl, Pos.compare_cont_refl.
Qed.

Lemma leb_total_nonneg (a b : float) :
  nonneg_finite a -> nonneg_finite b -> leb a b = true \/ leb b a = true.
Proof.
  destruct a as [sa | sa | | [ | ] ma ea]; simpl; try tauto;
  destruct b as [sb | sb | | [ | ] mb eb]; simpl; try tauto; intros _ _;
  unfold leb, SFleb, SFcompare; try (left; reflexivity); try (right; reflexivity).
  rewrite (Z.compare_antisym ea eb).
  destruct (ea ?= eb) eqn:He; simpl; try (left; reflexivity); try (right; reflexivity).
  pose proof (Pos.compare_cont_antisym ma mb Eq) as Hanti. cbn [CompOpp] in Hanti.
  rewrite <- Hanti.
  destruct (Pos.compare_cont Eq ma mb); simpl; auto.
Qed.

#[export, refine] Instance toy_runtime : PyRuntime Z := {
  rnd_seed := fun a _ => a;
  rnd_sample := toy_sample;
  rnd_uniform := toy_uniform;
  rnd_randint := toy_randint;
  math_pow_neg1 := toy_pow_neg1;
  set_iter_Z := nodup Z.eq_dec;
  set_iter_float := fun l => l;
  np_default_percents := toy_percents
}.
Proof.
  - reflexivity.
  - intros pop k g Hk. unfold toy_sample.
    replace ((0 <=? k) && (k <=? Z.of_nat (List.length pop))) with true; eauto.
    symmetry. apply andb_true_iff. split; apply Z.leb_le; lia.
  - intros pop k g Hk. unfold toy_sample.
    destruct ((0 <=? k) && (k <=? Z.of_nat (List.length pop))) eqn:E; [ | reflexivity].
    apply andb_true_iff in E. destruct E as [E1 E2].
    apply Z.leb_le in E1, E2. lia.
  - intros pop k g l g' Hs. unfold toy_sample in Hs.
    destruct ((0 <=? k) && (k <=? Z.of_nat (List.length pop))) eqn:Hk; [ | discriminate].
    apply andb_true_iff in Hk. destruct Hk as [Hk1 Hk2].
    apply Z.leb_le in Hk1, Hk2. inversion Hs; subst; clear Hs.
    set (r := rotate _ pop). split.
    + rewrite length_firstn. unfold r. rewrite rotate_length. lia.
    + exists (skipn (Z.to_nat k) r). rewrite firstn_skipn. apply rotate_perm.
  - intros a b g Ha Hb. unfold toy_uniform. cbn [fst].
    assert (Hfa : is_finite a = true) by (destruct a as [ | | | [ | ] ]; simpl in *; tauto).
    assert (Hfb : is_finite b = true) by (destruct b as [ | | | [ | ] ]; simpl in *; tauto).
    rewrite Hfa, Hfb. cbn [andb]. unfold between.
    pose proof (leb_refl_nonneg a Ha). pose proof (leb_refl_nonneg b Hb).
    destruct (leb_total_nonneg a b Ha Hb); destruct (Z.even (g / 65536)); tauto.
  - intros a b g Hab. unfold toy_uniform. cbn [fst]. now rewrite Hab.
  - intros a b g Hab. unfold toy_randint.
    replace (a <=? b) with true by (symmetry; apply Z.leb_le; lia). eauto.
  - intros a b g r g' Hr. unfold toy_randint in Hr.
    destruct (Z.leb_spec a b); [ | discriminate]. inversion Hr; subst.
    pose proof (Z.mod_pos_bound g (b - a + 1)). lia.
  - reflexivity.
  - intros l x. apply nodup_In.
  - intros l x Hx. exact Hx.
Defined.

Definition toy_final : loop_state Z :=
  Eval vm_compute in
    match allocate 20 6 5 (of_Z 4) 17 7 with
    | Some (OK st) => st
    | _ => initial_state 0 0
    end.

Definition toy_unit_final : loop_state Z :=
  Eval vm_compute in
    match allocate 10 4 5 one 6 42 with
    | Some (OK st) => st
    | _ => initial_state 0 0
    end.

(** * Proofs *)

(** ** Rounding to binary64 *)

Lemma digits2_pos_bounds (p : positive) :
  2 ^ (Zpos (digits2_pos p) - 1) <= Zpos p < 2 ^ Zpos (digits2_pos p).
Proof.
  induction p as [p IH | p IH | ]; simpl digits2_pos.
  - rewrite Pos2Z.inj_succ.
    replace (Z.succ (Zpos (digits2_pos p)) - 1) with (Z.succ (Zpos (digits2_pos p) - 1)) by lia.
    rewrite !Z.pow_succ_r by lia. lia.
  - rewrite Pos2Z.inj_succ.
    replace (Z.succ (Zpos (digits2_pos p)) - 1) with (Z.succ (Zpos (digits2_pos p) - 1)) by lia.
    rewrite !Z.pow_succ_r by lia. lia.
  - simpl. lia.
Qed.

Lemma Zdigits2_nonneg (m : Z) : 0 <= Zdigits2 m.
Proof. destruct m; simpl; lia. Qed.

Lemma Zdigits2_le_pow (m K : Z) :
  0 <= K -> 0 <= m -> m <= 2 ^ K -> Zdigits2 m <= K + 1.
Proof.
  intros HK Hm Hle. destruct m as [ | p | p]; simpl; try lia.
  destruct (digits2_pos_bounds p) as [Hlo _].
  destruct (Z_le_gt_dec (Zpos (digits2_pos p)) (K + 1)) as [ | Hgt]; [assumption | exfalso].
  assert (2 ^ (K + 1) <= 2 ^ (Zpos (digits2_pos p) - 1)) by (apply Z.pow_le_mono_r; lia).
  rewrite Z.pow_add_r in H by lia. lia.
Qed.

Section IterPos.
Context {A : Type} (f : A -> A) (P : Z -> A -> Prop).
Hypothesis step : forall k x, 0 <= k -> P k x -> P (k + 1) (f x).

Lemma iter_pos_count (p : positive) :
  forall k x, 0 <= k -> P k x -> P (k + Zpos p) (iter_pos f p x).
Proof.
  induction p as [p IH | p IH | ]; intros k x Hk Hx; simpl iter_pos.
  - replace (k + Zpos p~1) with (k + 1 + Zpos p + Zpos p) by lia.
    apply IH; [lia | ]. apply IH; [lia | ]. now apply step.
  - replace (k + Zpos p~0) with (k + Zpos p + Zpos p) by lia.
    apply IH; [lia | ]. now apply IH.
  - now apply step.
Qed.
End IterPos.

Lemma upper_of_loc (m : Z) (l : location) :
  upper (shr_record_of_loc m l) = m + inex l.
Proof. destruct l as [ | [ | | ]]; reflexivity. Qed.

Lemma shr_m_of_loc (m : Z) (l : location) : shr_m (shr_record_of_loc m l) = m.
Proof. destruct l as [ | [ | | ]]; reflexivity. Qed.

Ltac shr_1_cases m r s p :=
  destruct m as [ | [p | p | ] | p]; [ | | | | exfalso; lia];
  destruct r, s;
  cbn [shr_1 shr_m shr_r shr_s loc_of_shr_record inex orb] in *;
  try pose proof (Pos2Z.inj_xI p); try pose proof (Pos2Z.inj_xO p); lia.

Lemma shr_1_nonneg (mrs : shr_record) :
  0 <= shr_m mrs -> 0 <= shr_m (shr_1 mrs).
Proof.
  destruct mrs as [m r s]. cbn [shr_m]. intros Hm. shr_1_cases m r s p.
Qed.

Lemma shr_1_upper (mrs : shr_record) (C : Z) :
  0 <= shr_m mrs -> upper mrs <= 2 * C -> upper (shr_1 mrs) <= C.
Proof.
  destruct mrs as [m r s]. unfold upper. cbn [shr_m]. intros Hm Hu.
  shr_1_cases m r s p.
Qed.

Lemma shr_1_lower (mrs : shr_record) (C : Z) :
  0 <= shr_m mrs -> 2 * C <= shr_m mrs -> C <= shr_m (shr_1 mrs).
Proof.
  destruct mrs as [m r s]. cbn [shr_m]. intros Hm Hl. shr_1_cases m r s p.
Qed.

Lemma iter_shr_1_spec (p : positive) (mrs : shr_record) :
  0 <= shr_m mrs ->
  0 <= shr_m (iter_pos shr_1 p mrs) /\
  (forall C, upper mrs <= C * 2 ^ Zpos p -> upper (iter_pos shr_1 p mrs) <= C) /\
  (forall C, C * 2 ^ Zpos p <= shr_m mrs -> C <= shr_m (iter_pos shr_1 p mrs)).
Proof.
  intros Hm.
  pose (P := fun (k : Z) (x : shr_record) =>
    0 <= shr_m x /\
    (forall C, upper mrs <= C * 2 ^ k -> upper x <= C) /\
    (forall C, C * 2 ^ k <= shr_m mrs -> C <= shr_m x)).
  change (P (Zpos p) (iter_pos shr_1 p mrs)).
  replace (Zpos p) with (0 + Zpos p) by lia.
  apply iter_pos_count with (P := P).
  - intros k x Hk (Hx & Hup & Hlo). repeat split.
    + now apply shr_1_nonneg.
    + intros C HC. apply shr_1_upper; [assumption | ].
      apply Hup. rewrite Z.pow_add_r in HC by lia. lia.
    + intros C HC. apply shr_1_lower; [assumption | ].
      apply Hlo. rewrite Z.pow_add_r in HC by lia. lia.
  - lia.
  - unfold P. simpl. repeat split; [assumption | intros; lia | intros; lia].
Qed.

Lemma shr_spec (mrs : shr_record) (e n : Z) :
  0 <= shr_m mrs ->
  let e' := Z.max e (e + n) in
  snd (shr mrs e n) = e' /\
  0 <= shr_m (fst (shr mrs e n)) /\
  (forall C, upper mrs <= C * 2 ^ (e' - e) -> upper (fst (shr mrs e n)) <= C) /\
  (forall C, C * 2 ^ (e' - e) <= shr_m mrs -> C <= shr_m (fst (shr mrs e n))).
Proof.
  intros Hm e'. subst e'. destruct n as [ | p | p]; simpl shr; simpl fst; simpl snd.
  - rewrite Z.add_0_r, Z.max_id, Z.sub_diag. simpl.
    repeat split; [assumption | intros; lia | intros; lia].
  - replace (Z.max e (e + Zpos p)) with (e + Zpos p) by lia.
    replace (e + Zpos p - e) with (Zpos p) by lia.
    split; [reflexivity | ]. now apply iter_shr_1_spec.
  - replace (Z.max e (e + Zneg p)) with e by lia.
    rewrite Z.sub_diag. simpl.
    repeat split; [assumption | intros; lia | intros; lia].
Qed.

Lemma round_nearest_even_bounds (m : Z) (l : location) :
  m <= round_nearest_even m l <= m + inex l.
Proof.
  destruct l as [ | [ | | ]]; simpl; try lia.
  destruct (Z.even m); lia.
Qed.

Lemma upper_ge (mrs : shr_record) : shr_m mrs <= upper mrs.
Proof. unfold upper. destruct (loc_of_shr_record mrs); simpl; lia. Qed.

Lemma fexp_fexp64 (e : Z) : fexp prec emax e = fexp64 e.
Proof. reflexivity. Qed.

Lemma round_aux_spec (s : bool) (mx ex : Z) (lx : location) :
  0 <= mx ->
  exists e1 m1 e2 m2,
    e1 = Z.max ex (fexp64 (Zdigits2 mx + ex)) /\
    0 <= m1 /\
    (forall C, mx + inex lx <= C * 2 ^ (e1 - ex) -> m1 <= C) /\
    (forall C, C * 2 ^ (e1 - ex) <= mx -> C <= m1) /\
    e2 = Z.max e1 (fexp64 (Zdigits2 m1 + e1)) /\
    0 <= m2 /\
    (forall C, m1 <= C * 2 ^ (e2 - e1) -> m2 <= C) /\
    (forall C, C * 2 ^ (e2 - e1) <= m1 -> C <= m2) /\
    binary_round_aux prec emax s mx ex lx = rounded s m2 e2.
Proof.
  intros Hmx. unfold binary_round_aux, shr_fexp.
  pose proof (shr_spec (shr_record_of_loc mx lx) ex
                (fexp prec emax (Zdigits2 mx + ex) - ex)) as H1.
  rewrite shr_m_of_loc, upper_of_loc in H1. specialize (H1 Hmx).
  destruct (shr (shr_record_of_loc mx lx) ex
              (fexp prec emax (Zdigits2 mx + ex) - ex)) as [mrs1 e1].
  cbn [fst snd] in H1. destruct H1 as (He1 & Hn1 & Hu1 & Hl1).
  set (m1 := round_nearest_even (shr_m mrs1) (loc_of_shr_record mrs1)).
  assert (Hm1 : shr_m mrs1 <= m1 <= upper mrs1)
    by (apply round_nearest_even_bounds).
  pose proof (shr_spec (shr_record_of_loc m1 loc_Exact) e1
                (fexp prec emax (Zdigits2 m1 + e1) - e1)) as H2.
  rewrite shr_m_of_loc, upper_of_loc in H2.
  assert (Hm1' : 0 <= m1) by lia. specialize (H2 Hm1').
  destruct (shr (shr_record_of_loc m1 loc_Exact) e1
              (fexp prec emax (Zdigits2 m1 + e1) - e1)) as [mrs2 e2].
  cbn [fst snd] in H2. destruct H2 as (He2 & Hn2 & Hu2 & Hl2).
  exists e1, m1, e2, (shr_m mrs2).
  rewrite fexp_fexp64 in He1, He2, Hu1, Hl1, Hu2, Hl2.
  rewrite <- He1 in Hu1, Hl1. rewrite <- He2 in Hu2, Hl2.
  repeat split.
  - lia.
  - assumption.
  - intros C HC. specialize (Hu1 C).
    lia.
  - intros C HC. specialize (Hl1 C).
    lia.
  - lia.
  - assumption.
  - intros C HC. specialize (Hu2 C).
    cbn [inex] in Hu2. pose proof (upper_ge mrs2). lia.
  - intros C HC. specialize (Hl2 C).
    lia.
Qed.

Lemma Zdigits2_lower (m : Z) :
  0 < m -> 1 <= Zdigits2 m /\ 2 ^ (Zdigits2 m - 1) <= m.
Proof.
  destruct m as [ | p | p]; try lia. intros _. simpl Zdigits2.
  split; [lia | apply digits2_pos_bounds].
Qed.

Lemma pow2_split (a b : Z) : 0 <= a -> 0 <= b -> 2 ^ a * 2 ^ b = 2 ^ (a + b).
Proof. intros. now rewrite Z.pow_add_r. Qed.

Lemma pow2_pos (a : Z) : 0 <= a -> 1 <= 2 ^ a.
Proof. intros. assert (0 < 2 ^ a) by (apply Z.pow_pos_nonneg; lia). lia. Qed.

Lemma pow2_nonneg (a : Z) : 0 <= 2 ^ a.
Proof. apply Z.pow_nonneg. lia. Qed.

Lemma round_ub (s : bool) (mx ex : Z) (lx : location) (K : Z) :
  0 <= mx -> ex <= K -> -1074 <= K ->
  mx + inex lx <= 2 ^ (K - ex) ->
  ex <= 971 -> K <= 1023 ->
  exists m2 e2,
    binary_round_aux prec emax s mx ex lx = rounded s m2 e2 /\
    0 <= m2 /\ e2 <= K /\ e2 <= 971 /\ m2 <= 2 ^ (K - e2).
Proof.
  intros Hmx HexK HK Hub Hex HK'.
  destruct (round_aux_spec s mx ex lx Hmx)
    as (e1 & m1 & e2 & m2 & He1 & Hm1 & Hu1 & _ & He2 & Hm2 & Hu2 & _ & Heq).
  assert (Hinex : 0 <= inex lx) by (destruct lx; simpl; lia).
  assert (Hd : Zdigits2 mx <= K - ex + 1)
    by (apply Zdigits2_le_pow; lia).
  unfold fexp64 in He1.
  assert (He1K : e1 <= K) by lia.
  assert (Hm1K : m1 <= 2 ^ (K - e1)).
  { apply Hu1. rewrite pow2_split by lia.
    replace (K - e1 + (e1 - ex)) with (K - ex) by lia. assumption. }
  assert (Hd1 : Zdigits2 m1 <= K - e1 + 1)
    by (apply Zdigits2_le_pow; lia).
  unfold fexp64 in He2.
  assert (He2K : e2 <= K) by lia.
  exists m2, e2. repeat split; try assumption; try lia.
  apply Hu2. rewrite pow2_split by lia.
  replace (K - e2 + (e2 - e1)) with (K - e1) by lia. assumption.
Qed.

Lemma round_lb (s : bool) (mx ex : Z) (lx : location) (K : Z) :
  0 < mx -> 2 ^ (K - ex) <= mx -> -1074 <= K ->
  exists m2 e2,
    binary_round_aux prec emax s mx ex lx = rounded s (Zpos m2) e2 /\
    2 ^ (K - e2) <= Zpos m2.
Proof.
  intros Hmx Hlb HK.
  assert (Hmx0 : 0 <= mx) by lia.
  destruct (round_aux_spec s mx ex lx Hmx0)
    as (e1 & m1 & e2 & m2 & He1 & Hm1 & _ & Hl1 & He2 & Hm2 & _ & Hl2 & Heq).
  destruct (Zdigits2_lower mx Hmx) as [Hd Hdl].
  unfold fexp64 in He1.
  assert (HA : 1 <= m1 /\ 2 ^ (K - e1) <= m1).
  { destruct (Z_le_gt_dec e1 K) as [Hle | Hgt].
    - assert (2 ^ (K - e1) <= m1).
      { apply Hl1. rewrite pow2_split by lia.
        replace (K - e1 + (e1 - ex)) with (K - ex) by lia. assumption. }
      pose proof (pow2_pos (K - e1)). lia.
    - split; [ | rewrite Z.pow_neg_r by lia; lia].
      destruct (Z.eq_dec e1 ex) as [Heq1 | Hne1].
      + apply Hl1. rewrite Heq1, Z.sub_diag. simpl. lia.
      + assert (He1' : e1 = Zdigits2 mx + ex - 53) by lia.
        assert (2 ^ 52 <= m1).
        { apply Hl1. rewrite pow2_split by lia.
          replace (52 + (e1 - ex)) with (Zdigits2 mx - 1) by lia. assumption. }
        lia. }
  destruct HA as [Hm1pos Hm1lb].
  assert (Hm1pos' : 0 < m1) by lia.
  destruct (Zdigits2_lower m1 Hm1pos') as [Hd1 Hdl1].
  unfold fexp64 in He2.
  assert (HB : 1 <= m2 /\ 2 ^ (K - e2) <= m2).
  { destruct (Z_le_gt_dec e2 K) as [Hle | Hgt].
    - assert (2 ^ (K - e2) <= m2).
      { apply Hl2. rewrite pow2_split by lia.
        replace (K - e2 + (e2 - e1)) with (K - e1) by lia. assumption. }
      pose proof (pow2_pos (K - e2)). lia.
    - split; [ | rewrite Z.pow_neg_r by lia; lia].
      destruct (Z.eq_dec e2 e1) as [Heq1 | Hne1].
      + apply Hl2. rewrite Heq1, Z.sub_diag. simpl. lia.
      + assert (He2' : e2 = Zdigits2 m1 + e1 - 53) by lia.
        assert (2 ^ 52 <= m2).
        { apply Hl2. rewrite pow2_split by lia.
          replace (52 + (e2 - e1)) with (Zdigits2 m1 - 1) by lia. assumption. }
        lia. }
  destruct HB as [Hm2pos Hm2lb].
  destruct m2 as [ | p | p]; try lia.
  exists p, e2. split; assumption.
Qed.


Lemma lb_weaken (K K' : Z) (x : float) : lb K x -> K' <= K -> lb K' x.
Proof.
  destruct x as [ | | | s m e]; simpl; try tauto.
  intros Hm HK.
  destruct (Z_lt_le_dec (K' - e) 0).
  - rewrite Z.pow_neg_r by lia. lia.
  - apply Z.le_trans with (2 := Hm). apply Z.pow_le_mono_r; lia.
Qed.

Lemma pow2_le_mul (p q a b : Z) :
  1 <= a -> 1 <= b -> 2 ^ p <= a -> 2 ^ q <= b -> 2 ^ (p + q) <= a * b.
Proof.
  intros Ha Hb Hp Hq.
  destruct (Z_lt_le_dec (p + q) 0) as [Hneg | Hpq].
  { rewrite Z.pow_neg_r by lia. nia. }
  destruct (Z_lt_le_dec p 0) as [Hp0 | Hp0].
  { apply Z.le_trans with (2 ^ q); [apply Z.pow_le_mono_r; lia | nia]. }
  destruct (Z_lt_le_dec q 0) as [Hq0 | Hq0].
  { apply Z.le_trans with (2 ^ p); [apply Z.pow_le_mono_r; lia | nia]. }
  rewrite Z.pow_add_r by lia.
  pose proof (pow2_nonneg p). pose proof (pow2_nonneg q). nia.
Qed.

Lemma rounded_nonneg (m e : Z) : 0 <= m -> nonneg (rounded false m e).
Proof.
  destruct m as [ | p | p]; simpl; try lia; try tauto.
  intros _. destruct (e <=? 971); exact I.
Qed.

Lemma rounded_ub (s : bool) (m e K : Z) :
  0 <= m -> e <= K -> e <= 971 -> m <= 2 ^ (K - e) ->
  ub K (rounded s m e) /\ is_finite (rounded s m e) = true.
Proof.
  intros Hm He He' Hb. destruct m as [ | p | p]; simpl; try lia; try tauto.
  replace (e <=? 971) with true by (symmetry; apply Z.leb_le; lia).
  simpl. tauto.
Qed.

Lemma rounded_lb (s : bool) (p : positive) (e K : Z) :
  2 ^ (K - e) <= Zpos p -> lb K (rounded s (Zpos p) e).
Proof. intros Hb. simpl. destruct (e <=? 971); simpl; tauto. Qed.

(** multiplication *)
Lemma mul_nonneg (x y : float) :
  nonneg x -> nonneg y -> (pos_finite x \/ pos_finite y) -> nonneg (mul x y).
Proof.
  destruct x as [sx | [ | ] | | [ | ] mx ex]; simpl; try tauto;
  destruct y as [sy | [ | ] | | [ | ] my ey]; simpl; try tauto;
  intros _ _ Hor; try (destruct Hor; contradiction).
  destruct (round_aux_spec false (Zpos (mx * my)) (ex + ey) loc_Exact)
    as (e1 & m1 & e2 & m2 & _ & _ & _ & _ & _ & Hm2 & _ & _ & Heq); [lia | ].
  unfold mul, SFmul. cbn [xorb]. rewrite Heq. now apply rounded_nonneg.
Qed.


Lemma mul_lb (A B : Z) (x y : float) :
  lb A x -> lb B y -> -1074 <= A + B ->
  lb (A + B) (mul x y).
Proof.
  intros Hx Hy Hlo.
  destruct x as [sx | sx | | sx mx ex]; simpl in Hx; try tauto;
  destruct y as [sy | sy | | sy my ey]; simpl in Hy; try tauto;
  try exact I.
  destruct (round_lb (xorb sx sy) (Zpos (mx * my)) (ex + ey) loc_Exact (A + B))
    as (m2 & e2 & Heq & Hb); try lia.
  { rewrite Pos2Z.inj_mul.
    replace (A + B - (ex + ey)) with ((A - ex) + (B - ey)) by lia.
    apply pow2_le_mul; lia. }
  unfold mul, SFmul. rewrite Heq. now apply rounded_lb.
Qed.

Lemma mul_positive (x y : float) :
  positive_float x -> positive_float y -> positive_float (mul x y) \/ mul x y = S754_zero false.
Proof.
  destruct x as [sx | [ | ] | | [ | ] mx ex]; simpl; try tauto;
  destruct y as [sy | [ | ] | | [ | ] my ey]; simpl; try tauto.
  intros _ _.
  destruct (round_aux_spec false (Zpos (mx * my)) (ex + ey) loc_Exact)
    as (e1 & m1 & e2 & m2 & _ & _ & _ & _ & _ & Hm2 & _ & _ & Heq); [lia | ].
  unfold mul, SFmul. cbn [xorb]. rewrite Heq.
  destruct m2 as [ | p | p]; simpl; try lia; [now right | left].
  destruct (e2 <=? 971); exact I.
Qed.

(** division *)
Lemma new_location_inex (nb k : Z) :
  inex (new_location nb k) = if k =? 0 then 0 else 1.
Proof.
  unfold new_location, new_location_even, new_location_odd.
  destruct (Z.even nb); destruct (k =? 0); reflexivity.
Qed.

Lemma shiftl_match (m s : Z) :
  0 <= s ->
  match s with Z0 => m | Zpos _ => Z.shiftl m s | Zneg _ => 0 end = m * 2 ^ s.
Proof.
  intros Hs. destruct s as [ | p | p]; [ | | lia].
  - now rewrite Z.pow_0_r, Z.mul_1_r.
  - now rewrite Z.shiftl_mul_pow2 by lia.
Qed.

Lemma div_core_spec (mx my : positive) (ex ey : Z) :
  exists q e' l r,
    SFdiv_core_binary prec emax (Zpos mx) ex (Zpos my) ey = (q, e', l) /\
    e' = Z.min (fexp64 (Zdigits2 (Zpos mx) + ex - (Zdigits2 (Zpos my) + ey))) (ex - ey) /\
    Zpos mx * 2 ^ (ex - ey - e') = q * Zpos my + r /\
    0 <= r < Zpos my /\ 0 <= q /\
    inex l = (if r =? 0 then 0 else 1).
Proof.
  unfold SFdiv_core_binary.
  rewrite fexp_fexp64.
  set (e' := Z.min (fexp64 (Zdigits2 (Zpos mx) + ex - (Zdigits2 (Zpos my) + ey))) (ex - ey)).
  set (sft := ex - ey - e').
  assert (Hs : 0 <= sft) by (unfold sft, e'; lia).
  rewrite (shiftl_match (Zpos mx) sft Hs).
  assert (Hm' : 0 <= Zpos mx * 2 ^ sft)
    by (apply Z.mul_nonneg_nonneg; [lia | apply pow2_nonneg]).
  assert (Hsft : sft = ex - ey - e') by reflexivity.
  clearbody sft e'.
  remember (Zpos mx * 2 ^ sft) as m' eqn:Em'.
  pose proof (Z_div_mod m' (Zpos my)) as Hdm.
  destruct (Z.div_eucl m' (Zpos my)) as [q r].
  destruct Hdm as [Hqr Hr]; [lia | ].
  exists q, e', (new_location (Zpos my) r), r.
  repeat split; try lia.
  - rewrite <- Hsft. lia.
  - nia.
  - apply new_location_inex.
Qed.

Lemma div_nonneg (x y : float) :
  nonneg x -> pos_finite y -> nonneg (div x y).
Proof.
  destruct y as [sy | sy | | [ | ] my ey]; simpl; try tauto.
  destruct x as [sx | [ | ] | | [ | ] mx ex]; simpl; try tauto.
  intros _ _.
  destruct (div_core_spec mx my ex ey) as (q & e' & l & r & Hc & _ & _ & _ & Hq & _).
  unfold div, SFdiv. rewrite Hc. cbn [xorb].
  destruct (round_aux_spec false q e' l Hq)
    as (e1 & m1 & e2 & m2 & _ & _ & _ & _ & _ & Hm2 & _ & _ & Heq).
  rewrite Heq. now apply rounded_nonneg.
Qed.

Lemma lb_digits (B : Z) (m : positive) (e : Z) :
  2 ^ (B - e) <= Zpos m -> B + 1 <= Zdigits2 (Zpos m) + e.
Proof.
  intros Hb. simpl Zdigits2.
  destruct (digits2_pos_bounds m) as [_ Hhi].
  destruct (Z_lt_le_dec (B - e) 0); [lia | ].
  destruct (Z_lt_le_dec (B - e) (Zpos (digits2_pos m))); [lia | exfalso].
  assert (2 ^ Zpos (digits2_pos m) <= 2 ^ (B - e)) by (apply Z.pow_le_mono_r; lia).
  lia.
Qed.

Lemma div_ub (A B : Z) (x y : float) :
  ub A x -> lb B y -> is_finite y = true ->
  -1074 <= A - B -> A - B <= 971 ->
  ub (A - B) (div x y) /\ is_finite (div x y) = true.
Proof.
  intros Hx Hy Hfy Hlo Hhi.
  destruct y as [sy | sy | | sy my ey]; simpl in Hy, Hfy; try tauto; try discriminate.
  destruct x as [sx | sx | | sx mx ex]; simpl in Hx; try tauto;
    try (simpl; tauto).
  destruct Hx as [Hex Hmx].
  destruct (div_core_spec mx my ex ey) as (q & e' & l & r & Hc & He' & Hqr & Hr & Hq & Hl).
  unfold div, SFdiv. rewrite Hc.
  assert (Hd1 : Zdigits2 (Zpos mx) <= A - ex + 1) by (apply Zdigits2_le_pow; lia).
  pose proof (lb_digits B my ey Hy) as Hd2.
  unfold fexp64 in He'.
  set (K := A - B) in *.
  assert (HeK : e' <= K) by lia.
  assert (Hsft : 0 <= ex - ey - e') by lia.
  assert (Hkey : Zpos mx * 2 ^ (ex - ey - e') <= 2 ^ (K - e') * Zpos my).
  { apply Z.le_trans with (2 ^ (A - ex) * 2 ^ (ex - ey - e')).
    - apply Z.mul_le_mono_nonneg_r; [apply pow2_nonneg | assumption].
    - rewrite pow2_split by lia.
      destruct (Z_lt_le_dec (B - ey) 0) as [Hneg | Hpos].
      + apply Z.le_trans with (2 ^ (K - e') * 1); [ | apply Z.mul_le_mono_nonneg_l; [apply pow2_nonneg | lia]].
        rewrite Z.mul_1_r. apply Z.pow_le_mono_r; lia.
      + apply Z.le_trans with (2 ^ (K - e') * 2 ^ (B - ey)).
        * rewrite pow2_split by lia. apply Z.pow_le_mono_r; lia.
        * apply Z.mul_le_mono_nonneg_l; [apply pow2_nonneg | assumption]. }
  destruct (round_ub (xorb sx sy) q e' l K)
    as (m2 & e2 & Heq & Hm2 & He2 & He2' & Hb); try lia.
  { rewrite Hl. pose proof (pow2_nonneg (K - e')).
    destruct (Z.eqb_spec r 0); nia. }
  rewrite Heq. now apply rounded_ub.
Qed.

(** alignment and rounding of an integer significand *)
Lemma iter_xO_pow2 (d m : positive) :
  Zpos (Pos.iter xO m d) = Zpos m * 2 ^ Zpos d.
Proof.
  induction d as [ | d IH] using Pos.peano_ind.
  - simpl. lia.
  - rewrite Pos.iter_succ, Pos2Z.inj_xO, IH, Pos2Z.inj_succ.
    rewrite Z.pow_succ_r by lia. lia.
Qed.

Lemma shl_align_spec (mx : positive) (ex ex' : Z) :
  snd (shl_align mx ex ex') = Z.min ex ex' /\
  Zpos (fst (shl_align mx ex ex')) = Zpos mx * 2 ^ (ex - Z.min ex ex').
Proof.
  unfold shl_align. destruct (ex' - ex) as [ | d | d] eqn:Hd; cbn [fst snd].
  - replace (Z.min ex ex') with ex by lia. rewrite Z.sub_diag. simpl. lia.
  - replace (Z.min ex ex') with ex by lia. rewrite Z.sub_diag. simpl. lia.
  - replace (Z.min ex ex') with ex' by lia. split; [reflexivity | ].
    rewrite iter_xO_pow2. f_equal. f_equal. lia.
Qed.

Lemma rounded_has_sign (s : bool) (m e : Z) : 0 <= m -> has_sign s (rounded s m e).
Proof.
  destruct m as [ | p | p]; simpl; try lia; try reflexivity.
  intros _. destruct (e <=? 971); reflexivity.
Qed.

Lemma binary_round_has_sign (s : bool) (m : positive) (e : Z) :
  has_sign s (binary_round prec emax s m e).
Proof.
  unfold binary_round.
  destruct (shl_align m e (fexp prec emax (Zpos (digits2_pos m) + e))) as [mz ez].
  destruct (round_aux_spec s (Zpos mz) ez loc_Exact)
    as (e1 & m1 & e2 & m2 & _ & _ & _ & _ & _ & Hm2 & _ & _ & Heq); [lia | ].
  rewrite Heq. now apply rounded_has_sign.
Qed.

Lemma binary_round_ub (s : bool) (m : positive) (e K : Z) :
  e <= K -> -1074 <= K -> Zpos m <= 2 ^ (K - e) -> e <= 971 -> K <= 1023 ->
  ub K (binary_round prec emax s m e) /\
  is_finite (binary_round prec emax s m e) = true.
Proof.
  intros HeK HK Hm He HK'. unfold binary_round.
  pose proof (shl_align_spec m e (fexp prec emax (Zpos (digits2_pos m) + e))) as Hs.
  destruct (shl_align m e (fexp prec emax (Zpos (digits2_pos m) + e))) as [mz ez].
  cbn [fst snd] in Hs. destruct Hs as [Hez Hmz].
  set (ez' := Z.min e (fexp prec emax (Zpos (digits2_pos m) + e))) in *.
  assert (Hle : ez <= e) by lia.
  destruct (round_ub s (Zpos mz) ez loc_Exact K)
    as (m2 & e2 & Heq & Hm2 & He2 & He2' & Hb); try lia.
  { cbn [inex]. rewrite Z.add_0_r, Hmz, <- Hez.
    replace (K - ez) with ((K - e) + (e - ez)) by lia.
    rewrite <- pow2_split by lia.
    apply Z.mul_le_mono_nonneg_r; [apply pow2_nonneg | assumption]. }
  rewrite Heq. now apply rounded_ub.
Qed.

Lemma binary_round_lb (s : bool) (m : positive) (e K : Z) :
  2 ^ (K - e) <= Zpos m -> -1074 <= K ->
  lb K (binary_round prec emax s m e).
Proof.
  intros Hm HK. unfold binary_round.
  pose proof (shl_align_spec m e (fexp prec emax (Zpos (digits2_pos m) + e))) as Hs.
  destruct (shl_align m e (fexp prec emax (Zpos (digits2_pos m) + e))) as [mz ez].
  cbn [fst snd] in Hs. destruct Hs as [Hez Hmz].
  set (ez' := Z.min e (fexp prec emax (Zpos (digits2_pos m) + e))) in *.
  assert (Hle : ez <= e) by lia.
  destruct (round_lb s (Zpos mz) ez loc_Exact K)
    as (m2 & e2 & Heq & Hb); try lia.
  { rewrite Hmz, <- Hez.
    replace (K - ez) with ((K - e) + (e - ez)) by lia.
    apply pow2_le_mul; lia. }
  rewrite Heq. now apply rounded_lb.
Qed.

(** the double of an integer *)
Lemma of_Z_has_sign (z : Z) : 0 <= z -> has_sign false (of_Z z).
Proof.
  destruct z as [ | p | p]; try lia; intros _; [reflexivity | ].
  apply binary_round_has_sign.
Qed.

Lemma of_Z_ub (z K : Z) :
  0 <= z -> z <= 2 ^ K -> 0 <= K -> K <= 1023 ->
  ub K (of_Z z) /\ is_finite (of_Z z) = true.
Proof.
  intros Hz Hb HK HK'. destruct z as [ | p | p]; try lia.
  - simpl. tauto.
  - apply binary_round_ub; try lia. now rewrite Z.sub_0_r.
Qed.

Lemma of_Z_lb (z k : Z) :
  0 <= k -> 2 ^ k <= z -> lb k (of_Z z).
Proof.
  intros Hk Hb. pose proof (pow2_pos k Hk).
  destruct z as [ | p | p]; try lia.
  apply binary_round_lb; [now rewrite Z.sub_0_r | lia].
Qed.

(** subtraction of two positive doubles *)
Lemma sub_pos_pos (mx my : positive) (ex ey : Z) :
  let ez := Z.min ex ey in
  sub (S754_finite false mx ex) (S754_finite false my ey) =
  binary_normalize prec emax
    (Zpos mx * 2 ^ (ex - ez) - Zpos my * 2 ^ (ey - ez)) ez false.
Proof.
  intros ez. unfold sub, SFsub. cbn [cond_Zopp]. fold ez.
  destruct (shl_align_spec mx ex ez) as [_ Hx].
  destruct (shl_align_spec my ey ez) as [_ Hy].
  replace (Z.min ex ez) with ez in Hx by (unfold ez; lia).
  replace (Z.min ey ez) with ez in Hy by (unfold ez; lia).
  now rewrite Hx, Hy.
Qed.

Lemma one_aligned (ez : Z) : ez <= -52 -> 4503599627370496 * 2 ^ (-52 - ez) = 2 ^ (- ez).
Proof.
  intros H. change 4503599627370496 with (2 ^ 52).
  rewrite pow2_split by lia. f_equal. lia.
Qed.

Lemma sub_one_lb (x : float) :
  pos_finite x -> lb 1 x ->
  positive_float (sub x one) /\ lb 0 (sub x one).
Proof.
  intros Hp Hlb.
  destruct x as [ | | | [ | ] mx ex]; try (exfalso; exact Hp).
  cbn [lb] in Hlb. clear Hp. unfold one. rewrite sub_pos_pos.
  set (ez := Z.min ex (-52)).
  rewrite one_aligned by (unfold ez; lia).
  assert (Ha : 2 ^ (1 - ez) <= Zpos mx * 2 ^ (ex - ez)).
  { replace (1 - ez) with ((1 - ex) + (ex - ez)) by lia.
    apply pow2_le_mul; unfold ez; first [lia | apply pow2_pos; lia]. }
  replace (1 - ez) with (1 + - ez) in Ha by lia.
  rewrite <- pow2_split in Ha by (unfold ez; lia).
  pose proof (pow2_pos (- ez)) as Hp.
  remember (Zpos mx * 2 ^ (ex - ez) - 2 ^ (- ez)) as d eqn:Ed.
  assert (Hd : 2 ^ (0 - ez) <= d) by (simpl (0 - ez); unfold ez in *; lia).
  assert (Hd0 : 0 < d) by (simpl (0 - ez) in Hd; unfold ez in *; lia).
  destruct d as [ | p | p]; try lia.
  unfold binary_normalize.
  pose proof (binary_round_has_sign false p ez) as Hs.
  pose proof (binary_round_lb false p ez 0 Hd) as Hl.
  destruct (binary_round prec emax false p ez) as [ | | | s m e];
    simpl in *; subst; try tauto; split; try exact I; try lia; apply Hl; lia.
Qed.

Lemma sub_one_ub (x : float) (K : Z) :
  pos_finite x -> lb 1 x -> ub K x -> 0 <= K -> K <= 1023 ->
  ub K (sub x one) /\ is_finite (sub x one) = true.
Proof.
  intros Hp Hlb Hub HK HK'.
  destruct x as [ | | | [ | ] mx ex]; try (exfalso; exact Hp).
  cbn [lb] in Hlb. destruct Hub as [Hex Hub]. clear Hp.
  unfold one. rewrite sub_pos_pos.
  set (ez := Z.min ex (-52)).
  rewrite one_aligned by (unfold ez; lia).
  assert (Ha : 2 ^ (1 - ez) <= Zpos mx * 2 ^ (ex - ez)).
  { replace (1 - ez) with ((1 - ex) + (ex - ez)) by lia.
    apply pow2_le_mul; unfold ez; first [lia | apply pow2_pos; lia]. }
  replace (1 - ez) with (1 + - ez) in Ha by lia.
  rewrite <- pow2_split in Ha by (unfold ez; lia).
  pose proof (pow2_pos (- ez)) as Hp.
  assert (Hb : Zpos mx * 2 ^ (ex - ez) <= 2 ^ (K - ez)).
  { replace (K - ez) with ((K - ex) + (ex - ez)) by lia.
    rewrite <- pow2_split by (unfold ez; lia).
    apply Z.mul_le_mono_nonneg_r; [apply pow2_nonneg | assumption]. }
  remember (Zpos mx * 2 ^ (ex - ez) - 2 ^ (- ez)) as d eqn:Ed.
  assert (Hd0 : 0 < d) by (unfold ez in *; lia).
  destruct d as [ | p | p]; try lia.
  unfold binary_normalize.
  apply binary_round_ub; unfold ez in *; lia.
Qed.

(** the multi-destination test *)
Lemma ltb_c_positive (r : float) :
  ltb c_0_001 r = true -> positive_float r.
Proof.
  destruct r as [ [ | ] | [ | ] | | [ | ] m e]; simpl; try discriminate; tauto.
Qed.

Lemma multi_destination_lb (spInv : float) :
  multi_destination spInv = true -> positive_float spInv /\ lb 0 spInv.
Proof.
  unfold multi_destination. intros H. apply ltb_c_positive in H.
  destruct spInv as [s | [ | ] | | [ | ] mx ex];
    try (simpl in H; simpl; tauto).
  - (* negative *)
    exfalso. unfold sub, SFsub, one in H. cbn [cond_Zopp] in H.
    set (a := Zpos (fst (shl_align mx ex (Z.min ex (-52))))) in H.
    set (b := Zpos (fst (shl_align 4503599627370496 (-52) (Z.min ex (-52))))) in H.
    assert (Hn : - a - b < 0) by (unfold a, b; lia).
    destruct (- a - b) as [ | p | p]; try lia.
    unfold binary_normalize in H.
    pose proof (binary_round_has_sign true p (Z.min ex (-52))) as Hs.
    destruct (binary_round prec emax true p (Z.min ex (-52))) as [ | | | s m e];
      simpl in Hs; subst; simpl in H; tauto.
  - split; [exact I | ].
    unfold one in H. rewrite sub_pos_pos in H.
    set (ez := Z.min ex (-52)) in *.
    rewrite one_aligned in H by (unfold ez; lia).
    remember (Zpos mx * 2 ^ (ex - ez) - 2 ^ (- ez)) as d eqn:Ed.
    assert (Hd : 0 < d).
    { destruct d as [ | p | p]; try lia; exfalso.
      - simpl in H. exact H.
      - unfold binary_normalize in H.
        pose proof (binary_round_has_sign true p ez) as Hs.
        destruct (binary_round prec emax true p ez) as [ | | | s m e];
          simpl in Hs; subst; simpl in H; tauto. }
    cbn [lb].
    destruct (Z_lt_le_dec (0 - ex) 0) as [Hneg | Hpos].
    { rewrite Z.pow_neg_r by lia. lia. }
    assert (He : 2 ^ (- ez) = 2 ^ (0 - ex) * 2 ^ (ex - ez)).
    { rewrite pow2_split by (unfold ez; lia). f_equal. lia. }
    assert (Hp : 1 <= 2 ^ (ex - ez)) by (apply pow2_pos; unfold ez; lia).
    rewrite He in Ed. clearbody ez. nia.
Qed.

(** ** Floats to integers *)

Lemma ceil_fin_pos (m : positive) (e : Z) : 1 <= ceil_fin false m e.
Proof.
  unfold ceil_fin, signed. destruct (Z.leb_spec 0 e) as [He | He].
  - pose proof (pow2_pos e He). nia.
  - assert (HP : 0 < 2 ^ (- e)) by (apply Z.pow_pos_nonneg; lia).
    assert (- Zpos m / 2 ^ (- e) < 0) by (apply Z.div_lt_upper_bound; lia).
    lia.
Qed.

Lemma floor_fin_nonneg (m : positive) (e : Z) : 0 <= floor_fin false m e.
Proof.
  unfold floor_fin, signed. destruct (Z.leb_spec 0 e) as [He | He].
  - pose proof (pow2_pos e He). nia.
  - apply Z.div_pos; [lia | apply Z.pow_pos_nonneg; lia].
Qed.

Lemma trunc_floor_pos (m : positive) (e : Z) :
  trunc_fin false m e = floor_fin false m e.
Proof.
  unfold trunc_fin, floor_fin, signed.
  destruct (Z.leb_spec 0 e) as [He | He]; [reflexivity | ].
  apply Z.quot_div_nonneg; [lia | apply Z.pow_pos_nonneg; lia].
Qed.

Lemma floor_fin_ub (m : positive) (e K : Z) :
  0 <= K -> ub K (S754_finite false m e) -> floor_fin false m e <= 2 ^ K.
Proof.
  intros HK [He Hm]. unfold floor_fin, signed.
  destruct (Z.leb_spec 0 e) as [He0 | He0].
  - replace K with ((K - e) + e) at 1 by lia. rewrite <- pow2_split by lia.
    apply Z.mul_le_mono_nonneg_r; [apply pow2_nonneg | assumption].
  - apply Z.div_le_upper_bound; [apply Z.pow_pos_nonneg; lia | ].
    rewrite pow2_split by lia. replace (- e + K) with (K - e) by lia. assumption.
Qed.

Lemma py_int_floor (x : float) : nonneg x \/ x = S754_nan -> py_int x = math_floor x.
Proof.
  intros [Hx | Hx]; [ | now subst].
  destruct x as [s | s | | [ | ] m e]; simpl in Hx; try tauto; try reflexivity.
  simpl. now rewrite trunc_floor_pos.
Qed.

Lemma math_floor_nonneg (x : float) (v : Z) :
  nonneg x -> math_floor x = OK v -> 0 <= v.
Proof.
  destruct x as [s | [ | ] | | [ | ] m e]; simpl; try tauto; try discriminate;
    intros _ Hv; inversion Hv; subst; first [lia | apply floor_fin_nonneg].
Qed.

(** ** Drawing the fan-out and the slots *)

Lemma between_pos_finite (a u b : float) :
  pos_finite a -> pos_finite b -> between a u b -> pos_finite u.
Proof.
  unfold between, leb, SFleb.
  destruct a as [sa | sa | | [ | ] ma ea]; simpl; try tauto;
  destruct b as [sb | sb | | [ | ] mb eb]; simpl; try tauto;
  destruct u as [su | [ | ] | | [ | ] mu eu]; simpl; try tauto;
  intros _ _ [[H1 H2] | [H1 H2]]; discriminate.
Qed.

Lemma fanout_bounds_positive (spInv : float) :
  multi_destination spInv = true ->
  positive_float (mul half spInv) /\ positive_float (mul two spInv).
Proof.
  intros Hm. destruct (multi_destination_lb spInv Hm) as [Hp Hl].
  assert (Hh : positive_float half /\ lb (-1) half) by (simpl; split; [exact I | lia]).
  assert (Ht : positive_float two /\ lb 1 two) by (simpl; split; [exact I | lia]).
  split.
  - pose proof (mul_lb (-1) 0 half spInv (proj2 Hh) Hl) as L.
    destruct (mul_positive half spInv (proj1 Hh) Hp) as [P | Z0]; [assumption | ].
    rewrite Z0 in L. simpl in L. exfalso. apply L. lia.
  - pose proof (mul_lb 1 0 two spInv (proj2 Ht) Hl) as L.
    destruct (mul_positive two spInv (proj1 Ht) Hp) as [P | Z0]; [assumption | ].
    rewrite Z0 in L. simpl in L. exfalso. apply L. lia.
Qed.

Lemma positive_finite (x : float) :
  positive_float x -> is_finite x = true -> pos_finite x.
Proof. destruct x as [ | [ | ] | | [ | ] ]; simpl; try tauto; discriminate. Qed.

Lemma pos_finite_nonneg_finite (x : float) : pos_finite x -> nonneg_finite x.
Proof. destruct x as [ | | | [ | ] ]; simpl; tauto. Qed.

Section AllocatorProofs.

Context {G : Type} `{PyRuntime G}.

Lemma draw_candidate_single (spInv : float) (g : G) :
  multi_destination spInv = false -> draw_candidate spInv g = OK (1, g).
Proof. intros Hm. unfold draw_candidate. now rewrite Hm. Qed.

Lemma draw_candidate_ge_1 (spInv : float) (g g' : G) (k : Z) :
  draw_candidate spInv g = OK (k, g') -> 1 <= k.
Proof.
  unfold draw_candidate. destruct (multi_destination spInv) eqn:Hm.
  - destruct (fanout_bounds_positive spInv Hm) as [Ha Hb].
    pose proof (uniform_between (mul half spInv) (mul two spInv) g) as Hbt.
    pose proof (uniform_not_finite (mul half spInv) (mul two spInv) g) as Hnf.
    destruct (rnd_uniform (mul half spInv) (mul two spInv) g) as [u gu].
    cbn [fst] in Hbt, Hnf.
    destruct (is_finite (mul half spInv) && is_finite (mul two spInv)) eqn:Hfin.
    + apply andb_true_iff in Hfin. destruct Hfin as [Hfa Hfb].
      pose proof (positive_finite _ Ha Hfa) as Pa.
      pose proof (positive_finite _ Hb Hfb) as Pb.
      specialize (Hbt (pos_finite_nonneg_finite _ Pa) (pos_finite_nonneg_finite _ Pb)).
      pose proof (between_pos_finite _ _ _ Pa Pb Hbt) as Pu.
      destruct u as [ | | | [ | ] m e]; simpl in Pu; try tauto.
      cbn [math_ceil bind]. intros Hk. inversion Hk; subst. apply ceil_fin_pos.
    + specialize (Hnf eq_refl).
      destruct u as [ | | | s m e]; simpl in Hnf; try discriminate;
        cbn [math_ceil bind]; discriminate.
  - intros Hk. inversion Hk. lia.
Qed.

Lemma draw_candidate_total (spInv : float) (g : G) :
  fanout_ok spInv = true -> exists k g', draw_candidate spInv g = OK (k, g').
Proof.
  unfold fanout_ok, draw_candidate. intros Hok.
  destruct (multi_destination spInv) eqn:Hm; [ | eauto].
  cbn [negb orb] in Hok. apply andb_true_iff in Hok. destruct Hok as [Hfa Hfb].
  destruct (fanout_bounds_positive spInv Hm) as [Ha Hb].
  pose proof (positive_finite _ Ha Hfa) as Pa.
  pose proof (positive_finite _ Hb Hfb) as Pb.
  pose proof (uniform_between (mul half spInv) (mul two spInv) g
                (pos_finite_nonneg_finite _ Pa) (pos_finite_nonneg_finite _ Pb)) as Hbt.
  destruct (rnd_uniform (mul half spInv) (mul two spInv) g) as [u gu].
  cbn [fst] in Hbt.
  pose proof (between_pos_finite _ _ _ Pa Pb Hbt) as Pu.
  destruct u as [ | | | [ | ] m e]; simpl in Pu; try tauto.
  cbn [math_ceil bind]. eauto.
Qed.

Lemma draw_slots_bounds (max_sd : Z) (g g' : G) (s : Z) :
  1 <= max_sd -> draw_slots max_sd g = OK (s, g') -> 1 <= s <= max_sd.
Proof.
  intros Hmax. unfold draw_slots.
  destruct (int_true_div max_sd 2) as [h | e]; cbn [bind]; [ | discriminate].
  destruct (math_floor h) as [lo | e]; cbn [bind]; [ | discriminate].
  destruct (rnd_randint lo max_sd g) as [[s0 g0] | e] eqn:Hr; cbn [bind]; [ | discriminate].
  intros Hs. inversion Hs; subst. apply randint_inv in Hr. lia.
Qed.

Lemma half_floor (max_sd : Z) :
  1 <= max_sd <= 2 ^ 971 ->
  exists h lo, int_true_div max_sd 2 = OK h /\ math_floor h = OK lo /\
               0 <= lo <= max_sd.
Proof.
  intros [Hlo Hhi]. unfold int_true_div. cbn [Z.eqb].
  destruct max_sd as [ | p | p]; try lia. cbn [exact_of_Z].
  set (K := Zdigits2 (Zpos p)).
  assert (HK : K <= 971 + 1) by (apply Zdigits2_le_pow; lia).
  destruct (Zdigits2_lower (Zpos p)) as [HK1 HKl]; [lia | ]. fold K in HK1, HKl.
  assert (Hx : ub K (S754_finite false p 0)).
  { cbn [ub]. split; [lia | ]. rewrite Z.sub_0_r.
    destruct (digits2_pos_bounds p) as [_ Hp]. exact (Z.lt_le_incl _ _ Hp). }
  assert (Hy : lb 1 (S754_finite false 2 0)) by (cbn [lb]; simpl; lia).
  destruct (div_ub K 1 _ _ Hx Hy eq_refl) as [Hub Hfin]; try lia.
  assert (Hnn : nonneg (div (S754_finite false p 0) (S754_finite false 2 0)))
    by (apply div_nonneg; exact I).
  rewrite Hfin.
  destruct (div (S754_finite false p 0) (S754_finite false 2 0))
    as [s | s | | [ | ] m e]; simpl in Hnn, Hfin; try tauto; try discriminate.
  - exists (S754_zero s), 0. repeat split; lia.
  - exists (S754_finite false m e), (floor_fin false m e). repeat split.
    + apply floor_fin_nonneg.
    + apply Z.le_trans with (2 ^ (K - 1)); [ | assumption].
      apply floor_fin_ub; [lia | assumption].
Qed.

Lemma draw_slots_total (max_sd : Z) (g : G) :
  1 <= max_sd <= 2 ^ 971 -> exists s g', draw_slots max_sd g = OK (s, g').
Proof.
  intros Hmax. destruct (half_floor max_sd Hmax) as (h & lo & Hh & Hf & Hlo).
  unfold draw_slots. rewrite Hh. cbn [bind]. rewrite Hf. cbn [bind].
  destruct (randint_total lo max_sd g) as (s0 & g0 & Hr); [lia | ].
  rewrite Hr. cbn [bind]. eauto.
Qed.

End AllocatorProofs.

(** ** Node lists *)

Lemma range_In (n x : Z) : In x (range n) <-> 0 <= x < n.
Proof.
  unfold range. rewrite in_map_iff. split.
  - intros (k & Hk & Hin). apply in_seq in Hin. lia.
  - intros Hx. exists (Z.to_nat x). split; [lia | ]. apply in_seq. lia.
Qed.

Lemma range_NoDup (n : Z) : NoDup (range n).
Proof.
  unfold range. apply Injective_map_NoDup; [ | apply seq_NoDup].
  intros a b Hab. lia.
Qed.

Lemma range_length (n : Z) : List.length (range n) = Z.to_nat n.
Proof. unfold range. now rewrite length_map, length_seq. Qed.

Lemma others_In (n src x : Z) : In x (others n src) <-> (0 <= x < n /\ x <> src).
Proof.
  unfold others. rewrite filter_In, range_In, negb_true_iff, Z.eqb_neq. tauto.
Qed.

Lemma others_NoDup (n src : Z) : NoDup (others n src).
Proof. apply NoDup_filter, range_NoDup. Qed.

Lemma others_length (n src : Z) :
  n - 1 <= Z.of_nat (List.length (others n src)).
Proof.
  assert (Hincl : incl (range n) (src :: others n src)).
  { intros x Hx. destruct (Z.eq_dec x src) as [-> | Hne]; [now left | right].
    apply others_In. apply range_In in Hx. tauto. }
  pose proof (NoDup_incl_length (range_NoDup n) Hincl) as Hlen.
  rewrite range_length in Hlen. cbn [List.length] in Hlen. lia.
Qed.

Section LoopProofs.

Context {G : Type} `{PyRuntime G}.

Lemma iteration_pass (n max_sd : Z) (spInv : float) (st st' : loop_state G) :
  2 <= n -> 0 < remainingT st ->
  iteration n max_sd spInv st = OK st' ->
  exists d, pass n max_sd spInv st st' d.
Proof.
  intros Hn Hrem. unfold iteration.
  destruct (rnd_sample (range n) 1 (rng st)) as [[l g1] | e] eqn:Hs1;
    cbn [bind]; [ | discriminate].
  destruct (sample_inv _ _ _ _ _ Hs1) as [Hl1 (rest1 & Hp1)].
  destruct l as [ | src [ | ? ?]]; try discriminate.
  assert (Hsrc : 0 <= src < n).
  { apply range_In. apply (Permutation_in src Hp1). now left. }
  destruct (draw_candidate spInv g1) as [[cand g2] | e] eqn:Hc;
    cbn [bind]; [ | discriminate].
  pose proof (draw_candidate_ge_1 _ _ _ _ Hc) as Hcand.
  set (nDst := Z.min (n - 1) (Z.min (remainingT st) cand)).
  destruct (rnd_sample (others n src) nDst g2) as [[dsts g3] | e] eqn:Hs2;
    cbn [bind]; [ | discriminate].
  destruct (sample_inv _ _ _ _ _ Hs2) as [Hl2 (rest2 & Hp2)].
  destruct (draw_slots max_sd g3) as [[s g4] | e] eqn:Hsl;
    cbn [bind]; [ | discriminate].
  intros Hst. inversion Hst; subst st'; clear Hst. cbn [lines nD remainingT].
  exists {| d_src := src; d_nDst := nDst; d_dsts := dsts; d_slots := s |}.
  unfold pass, good_demand. cbn [d_src d_nDst d_dsts d_slots].
  assert (HND : NoDup (dsts ++ rest2))
    by (apply (Permutation_NoDup (Permutation_sym Hp2)), others_NoDup).
  assert (Hin : forall x, In x dsts -> 0 <= x < n /\ x <> src).
  { intros x Hx. apply others_In. apply (Permutation_in x Hp2).
    apply in_or_app. now left. }
  repeat apply conj; try reflexivity; try (intros; unfold nDst; lia).
  - intros Hx. apply Hin in Hx. lia.
  - now apply NoDup_app_remove_r in HND.
  - intros x Hx. apply Hin in Hx. lia.
  - intros Hmax. apply (draw_slots_bounds _ _ _ _ Hmax Hsl).
  - intros Hm. rewrite (draw_candidate_single _ _ Hm) in Hc.
    inversion Hc; subst. unfold nDst. lia.
Qed.

Lemma iteration_total (n max_sd : Z) (spInv : float) (st : loop_state G) :
  2 <= n -> 0 < remainingT st -> 1 <= max_sd <= 2 ^ 971 ->
  fanout_ok spInv = true ->
  exists st', iteration n max_sd spInv st = OK st'.
Proof.
  intros Hn Hrem Hmax Hok. unfold iteration.
  destruct (sample_total (range n) 1 (rng st)) as (l & g1 & Hs1).
  { rewrite range_length. lia. }
  rewrite Hs1. cbn [bind].
  destruct (sample_inv _ _ _ _ _ Hs1) as [Hl1 _].
  destruct l as [ | src [ | ? ?]]; cbn [List.length] in Hl1; try lia.
  destruct (draw_candidate_total spInv g1 Hok) as (cand & g2 & Hc).
  rewrite Hc. cbn [bind].
  pose proof (draw_candidate_ge_1 _ _ _ _ Hc) as Hcand.
  set (nDst := Z.min (n - 1) (Z.min (remainingT st) cand)).
  destruct (sample_total (others n src) nDst g2) as (dsts & g3 & Hs2).
  { pose proof (others_length n src). unfold nDst. lia. }
  rewrite Hs2. cbn [bind].
  destruct (draw_slots_total max_sd g3 Hmax) as (s & g4 & Hsl).
  rewrite Hsl. cbn [bind]. eauto.
Qed.

End LoopProofs.

Section WhileProofs.

Context {G : Type} `{PyRuntime G}.

Lemma while_loop_stops (fuel : nat) (n max_sd : Z) (spInv : float)
    (st : loop_state G) :
  remainingT st <= 0 -> while_loop fuel n max_sd spInv st = Some (OK st).
Proof.
  intros Hr. destruct fuel; simpl;
    (destruct (Z.ltb_spec 0 (remainingT st)); [lia | reflexivity]).
Qed.

Lemma while_loop_step (fuel : nat) (n max_sd : Z) (spInv : float)
    (st : loop_state G) :
  0 < remainingT st ->
  while_loop (S fuel) n max_sd spInv st =
  match iteration n max_sd spInv st with
  | OK st' => while_loop fuel n max_sd spInv st'
  | Raise e => Some (Raise e)
  end.
Proof.
  intros Hr. simpl. destruct (Z.ltb_spec 0 (remainingT st)); [reflexivity | lia].
Qed.

(** An invariant of the passes holds when the loop is left. *)
Lemma while_loop_invariant (I : loop_state G -> Prop) (n max_sd : Z)
    (spInv : float) :
  (forall st st', I st -> 0 < remainingT st ->
                  iteration n max_sd spInv st = OK st' -> I st') ->
  forall fuel st st',
    I st -> while_loop fuel n max_sd spInv st = Some (OK st') ->
    I st' /\ remainingT st' <= 0.
Proof.
  intros Hstep fuel. induction fuel as [ | fuel IH]; intros st st' Hst Hrun.
  - simpl in Hrun. destruct (Z.ltb_spec 0 (remainingT st)); [discriminate | ].
    inversion Hrun; subst. split; [assumption | lia].
  - destruct (Z_lt_le_dec 0 (remainingT st)) as [Hpos | Hneg].
    + rewrite while_loop_step in Hrun by assumption.
      destruct (iteration n max_sd spInv st) as [st1 | e] eqn:Hit; [ | discriminate].
      apply (IH st1 st'); [ | assumption]. now apply (Hstep st st1).
    + rewrite while_loop_stops in Hrun by assumption.
      inversion Hrun; subst. split; [assumption | lia].
Qed.

Lemma while_loop_terminates (n max_sd : Z) (spInv : float) :
  2 <= n ->
  forall fuel st, remainingT st <= Z.of_nat fuel ->
    exists r, while_loop fuel n max_sd spInv st = Some r.
Proof.
  intros Hn fuel. induction fuel as [ | fuel IH]; intros st Hrem.
  - exists (OK st). apply while_loop_stops. lia.
  - destruct (Z_lt_le_dec 0 (remainingT st)) as [Hpos | Hneg].
    + rewrite while_loop_step by assumption.
      destruct (iteration n max_sd spInv st) as [st1 | e] eqn:Hit; [ | eauto].
      destruct (iteration_pass n max_sd spInv st st1 Hn Hpos Hit)
        as (d & _ & _ & Hr & Hd & _).
      apply IH. lia.
    + exists (OK st). now apply while_loop_stops.
Qed.

Lemma while_loop_total (n max_sd : Z) (spInv : float) :
  2 <= n -> 1 <= max_sd <= 2 ^ 971 -> fanout_ok spInv = true ->
  forall fuel st, remainingT st <= Z.of_nat fuel ->
    exists st', while_loop fuel n max_sd spInv st = Some (OK st').
Proof.
  intros Hn Hmax Hok fuel. induction fuel as [ | fuel IH]; intros st Hrem.
  - exists st. apply while_loop_stops. lia.
  - destruct (Z_lt_le_dec 0 (remainingT st)) as [Hpos | Hneg].
    + rewrite while_loop_step by assumption.
      destruct (iteration_total n max_sd spInv st Hn Hpos Hmax Hok) as [st1 Hit].
      rewrite Hit.
      destruct (iteration_pass n max_sd spInv st st1 Hn Hpos Hit)
        as (d & _ & _ & Hr & Hd & _).
      apply IH. lia.
    + exists st. now apply while_loop_stops.
Qed.

Lemma sum_nDst_app (l : list demand) (d : demand) :
  sum_nDst (l ++ [d]) = sum_nDst l + d_nDst d.
Proof. induction l as [ | x l IH]; simpl; lia. Qed.

Lemma max_nDst_ge (l : list demand) (d : demand) :
  In d l -> d_nDst d <= max_nDst l.
Proof.
  induction l as [ | x l IH]; simpl; [tauto | ].
  intros [-> | Hin]; [lia | ]. specialize (IH Hin). lia.
Qed.

Lemma accounted_initial (n nT : Z) (g : G) :
  0 <= nT -> accounted n nT (initial_state nT g).
Proof. intros HnT. unfold accounted, initial_state. simpl. auto with zarith. Qed.

Lemma accounted_pass (n max_sd nT : Z) (spInv : float) (st st' : loop_state G) :
  2 <= n -> accounted n nT st -> 0 < remainingT st ->
  iteration n max_sd spInv st = OK st' -> accounted n nT st'.
Proof.
  intros Hn (Hr & Hs & Hc & Hf) Hpos Hit.
  destruct (iteration_pass n max_sd spInv st st' Hn Hpos Hit)
    as (d & Hl & HnD & Hrem & Hd & _).
  unfold accounted. rewrite Hl, HnD, Hrem, sum_nDst_app, length_app.
  cbn [List.length]. repeat apply conj; try lia.
  apply Forall_app. split; [assumption | ]. constructor; [lia | constructor].
Qed.

Lemma length_le_sum (n : Z) (l : list demand) :
  Forall (fun d => 1 <= d_nDst d <= n - 1) l ->
  Z.of_nat (List.length l) <= sum_nDst l.
Proof.
  induction 1 as [ | d l Hd _ IH]; simpl; [lia | ].
  rewrite Zpos_P_of_succ_nat. lia.
Qed.

(** The draws behind one pass. *)
Lemma iteration_inv (n max_sd : Z) (spInv : float) (st st' : loop_state G) :
  iteration n max_sd spInv st = OK st' ->
  exists src g1 cand g2 dsts g3 s g4,
    rnd_sample (range n) 1 (rng st) = OK ([src], g1) /\
    draw_candidate spInv g1 = OK (cand, g2) /\
    rnd_sample (others n src) (Z.min (n - 1) (Z.min (remainingT st) cand)) g2
      = OK (dsts, g3) /\
    draw_slots max_sd g3 = OK (s, g4) /\
    st' = {| remainingT :=
               remainingT st - Z.min (n - 1) (Z.min (remainingT st) cand);
             lines := lines st ++
               [{| d_src := src;
                   d_nDst := Z.min (n - 1) (Z.min (remainingT st) cand);
                   d_dsts := dsts; d_slots := s |}];
             nD := nD st + 1;
             rng := g4 |}.
Proof.
  unfold iteration. intros Hit.
  destruct (rnd_sample (range n) 1 (rng st)) as [[l g1] | e] eqn:E1;
    cbn [bind] in Hit; [ | discriminate].
  destruct l as [ | src [ | ? ?]]; try discriminate.
  destruct (draw_candidate spInv g1) as [[cand g2] | e] eqn:E2;
    cbn [bind] in Hit; [ | discriminate].
  destruct (rnd_sample (others n src) _ g2) as [[dsts g3] | e] eqn:E3;
    cbn [bind] in Hit; [ | discriminate].
  destruct (draw_slots max_sd g3) as [[sl g4] | e] eqn:E4; cbn [bind] in Hit;
    [ | discriminate].
  inversion Hit; subst st'. exists src, g1, cand, g2, dsts, g3, sl, g4.
  repeat apply conj; solve [reflexivity | assumption].
Qed.

(** Every demand of a finished run satisfies what each pass guarantees. *)
Lemma lines_forall (P : demand -> Prop) (n max_sd : Z) (spInv : float) :
  (forall st st', 0 < remainingT st ->
      iteration n max_sd spInv st = OK st' ->
      exists d, lines st' = lines st ++ [d] /\ P d) ->
  forall fuel nT g st,
    allocate fuel n max_sd spInv nT g = Some (OK st) -> Forall P (lines st).
Proof.
  intros HP fuel nT g st Hrun. unfold allocate in Hrun.
  apply (while_loop_invariant (fun s => Forall P (lines s)) n max_sd spInv)
    in Hrun; [tauto | | constructor].
  intros s s' Hs Hpos Hit.
  destruct (HP s s' Hpos Hit) as (d & Hl & Hd). rewrite Hl.
  apply Forall_app. split; [assumption | ]. constructor; [assumption | constructor].
Qed.

Lemma allocate_accounted (n max_sd nT : Z) (spInv : float) (g : G)
    (fuel : nat) (st : loop_state G) :
  2 <= n -> 0 <= nT ->
  allocate fuel n max_sd spInv nT g = Some (OK st) ->
  accounted n nT st /\ remainingT st = 0.
Proof.
  intros Hn HnT Hrun. unfold allocate in Hrun.
  apply (while_loop_invariant (accounted n nT) n max_sd spInv) in Hrun.
  - destruct Hrun as [Hacc Hle]. split; [assumption | ].
    destruct Hacc as (Hr & _). lia.
  - intros s s' Hs Hpos Hit. now apply (accounted_pass n max_sd nT spInv s s').
  - now apply accounted_initial.
Qed.

End WhileProofs.

(** ** The estimator and the budget *)

Lemma py_int_floor_not_neg (x : float) : not_neg x -> py_int x = math_floor x.
Proof.
  destruct x as [s | s | | [ | ] m e]; simpl; try tauto; try reflexivity.
  intros _. now rewrite trunc_floor_pos.
Qed.



Lemma pos_finite_not_neg (x : float) : pos_finite x -> not_neg x.
Proof. destruct x as [ | | | [ | ] ]; simpl; tauto. Qed.




Lemma float_div_pos (x y : float) : pos_finite y -> float_div x y = OK (div x y).
Proof. destruct y as [ | | | [ | ] ]; simpl; tauto. Qed.

Lemma int_to_float_inv (z : Z) (f : float) :
  int_to_float z = OK f -> f = of_Z z /\ is_finite f = true.
Proof.
  unfold int_to_float. destruct (is_finite (of_Z z)) eqn:Hf; [ | discriminate].
  intros Hz. inversion Hz; subst. tauto.
Qed.


Lemma int_to_float_pos (z k : Z) (f : float) :
  0 <= k -> 2 ^ k <= z -> int_to_float z = OK f -> pos_finite f /\ lb k f.
Proof.
  intros Hk Hz Hf. apply int_to_float_inv in Hf. destruct Hf as [-> Hfin].
  pose proof (pow2_pos k Hk).
  pose proof (of_Z_has_sign z ltac:(lia)) as Hs.
  pose proof (of_Z_lb z k Hk Hz) as Hl.
  destruct (of_Z z) as [ | | | [ | ] ]; simpl in *; try tauto; discriminate.
Qed.

Lemma int_to_float_ub (z K : Z) :
  0 <= z -> z <= 2 ^ K -> 0 <= K -> K <= 1023 ->
  int_to_float z = OK (of_Z z) /\ ub K (of_Z z).
Proof.
  intros Hz Hb HK HK'. destruct (of_Z_ub z K Hz Hb HK HK') as [Hu Hf].
  unfold int_to_float. rewrite Hf. tauto.
Qed.

Lemma node_pairs (n : Z) : 2 <= n -> 2 ^ 1 <= n * (n - 1).
Proof. intros Hn. change (2 ^ 1) with 2. nia. Qed.









(** ** The relative error of a rounding *)




(** ** Doubles as rationals *)







(** *** Multiplication *)



(** *** Division *)






(** *** Conversion and subtraction *)





(** *** Truncation *)


(** *** A topology without edges *)

Lemma mul_zero_r (x : float) (s : bool) :
  pos_finite x -> mul x (S754_zero s) = S754_zero s.
Proof. destruct x as [ | | | [ | ] ]; simpl; tauto. Qed.

Lemma mul_zero_l (y : float) (s : bool) :
  pos_finite y -> mul (S754_zero s) y = S754_zero s.
Proof.
  destruct y as [ | | | [ | ] ]; simpl; try tauto; intros _;
    unfold mul, SFmul; now destruct s.
Qed.

Lemma div_zero_l (y : float) (s : bool) :
  pos_finite y -> div (S754_zero s) y = S754_zero s.
Proof.
  destruct y as [ | | | [ | ] ]; simpl; try tauto; intros _;
    unfold div, SFdiv; now destruct s.
Qed.

Lemma estimate_no_edges (n S max_sd : Z) :
  2 <= n <= 2 ^ 256 -> 0 < S <= 2 ^ 256 -> 0 < max_sd <= 2 ^ 256 ->
  calculateMaxNumberOfDemands n 0 S max_sd = OK 0.
Proof.
  intros Hn HS Hx.
  unfold calculateMaxNumberOfDemands, calculateGraphDensity.
  change (int_to_float 0) with (OK (S754_zero false)). cbn [bind].
  assert (Hnn : 0 <= n * (n - 1) <= 2 ^ 512).
  { change (2 ^ 512) with (2 ^ 256 * 2 ^ 256). nia. }
  destruct (int_to_float_ub (n * (n - 1)) 512) as [Ed Ud]; try lia.
  rewrite Ed. cbn [bind].
  destruct (int_to_float_pos _ 1 _ ltac:(lia) (node_pairs n ltac:(lia)) Ed)
    as [Pden _].
  rewrite (float_div_pos _ _ Pden). cbn [bind].
  destruct (int_to_float_ub n 256) as [En Un]; try lia.
  rewrite En. cbn [bind].
  destruct (int_to_float_pos n 1 _ ltac:(lia) ltac:(change (2 ^ 1) with 2; lia) En)
    as [Pn Ln].
  destruct (int_to_float_ub S 256) as [Es Us]; try lia.
  rewrite Es. cbn [bind].
  destruct (int_to_float_pos S 0 _ ltac:(lia) ltac:(change (2 ^ 0) with 1; lia) Es)
    as [Ps _].
  destruct (int_to_float_ub max_sd 256) as [Ex Ux]; try lia.
  rewrite Ex. cbn [bind].
  destruct (int_to_float_pos max_sd 0 _ ltac:(lia)
              ltac:(change (2 ^ 0) with 1; lia) Ex) as [Px _].
  rewrite (float_div_pos _ _ Px). cbn [bind].
  destruct (sub_one_ub (of_Z n) 256 Pn Ln Un) as [_ Fa]; try lia.
  destruct (sub_one_lb (of_Z n) Pn Ln) as [Pa _].
  pose proof (positive_finite _ Pa Fa) as Pa'.
  change (mul two (S754_zero false)) with (S754_zero false).
  rewrite (div_zero_l _ _ Pden), (mul_zero_r _ _ Pa'), (mul_zero_l _ _ Ps),
    (div_zero_l _ _ Px).
  reflexivity.
Qed.

(** *** The estimator against the exact quotient *)










(** ** The claims on the sizing estimator *)






(** ** The claims on the allocator *)

Section AllocatorClaims.

Context {G : Type} `{PyRuntime G}.

(** C4.  The loop runs while [remainingT > 0]; every pass lowers
    [remainingT] by at least 1; the loop is over after at most [nT]
    passes; a pass that starts with [remainingT = 1] yields [nDst = 1]
    whatever candidate was drawn. *)
Theorem allocator_terminates (n max_sd : Z) (spInv : float) (nT : Z) (g : G) :
  2 <= n -> 1 <= nT ->
  (forall fuel st, remainingT st <= 0 ->
     while_loop fuel n max_sd spInv st = Some (OK st)) /\
  (forall st st', 0 < remainingT st ->
     iteration n max_sd spInv st = OK st' ->
     0 <= remainingT st' <= remainingT st - 1) /\
  (exists r, allocate (Z.to_nat nT) n max_sd spInv nT g = Some r) /\
  (forall fuel st, allocate fuel n max_sd spInv nT g = Some (OK st) ->
     nD st <= nT) /\
  (forall st st', remainingT st = 1 ->
     iteration n max_sd spInv st = OK st' ->
     exists d, lines st' = lines st ++ [d] /\ d_nDst d = 1 /\
               remainingT st' = 0) /\
  (1 <= max_sd <= 2 ^ 971 -> fanout_ok spInv = true ->
   exists st, allocate (Z.to_nat nT) n max_sd spInv nT g = Some (OK st)).
Proof.
  intros Hn HnT. repeat apply conj.
  - intros fuel st. apply while_loop_stops.
  - intros st st' Hpos Hit.
    destruct (iteration_pass n max_sd spInv st st' Hn Hpos Hit)
      as (d & _ & _ & Hr & Hd & _). lia.
  - apply while_loop_terminates; [assumption | ]. cbn [initial_state remainingT]. lia.
  - intros fuel st Hrun.
    destruct (allocate_accounted n max_sd nT spInv g fuel st Hn ltac:(lia) Hrun)
      as [(_ & Hs & Hc & Hf) Hz].
    pose proof (length_le_sum n _ Hf). lia.
  - intros st st' H1 Hit.
    destruct (iteration_pass n max_sd spInv st st' Hn ltac:(lia) Hit)
      as (d & Hl & _ & Hr & Hd & _ & _ & _ & Hone).
    exists d. specialize (Hone H1). repeat apply conj; [assumption | assumption | lia].
  - intros Hmax Hok. apply while_loop_total; try assumption.
    cbn [initial_state remainingT]. lia.
Qed.

(** C5.  In every emitted demand the source is not a destination, the
    destinations are pairwise distinct, and there are between 1 and n-1
    of them. *)
Theorem emitted_demands_well_formed (n max_sd : Z) (spInv : float) (nT : Z)
    (g : G) (fuel : nat) (st : loop_state G) :
  2 <= n ->
  allocate fuel n max_sd spInv nT g = Some (OK st) ->
  Forall (fun d => ~ In (d_src d) (d_dsts d) /\ NoDup (d_dsts d) /\
                   1 <= Z.of_nat (List.length (d_dsts d)) <= n - 1)
         (lines st).
Proof.
  intros Hn. apply lines_forall. intros s s' Hpos Hit.
  destruct (iteration_pass n max_sd spInv s s' Hn Hpos Hit)
    as (d & Hl & _ & _ & Hd & (_ & Hsrc & Hnd & Hlen & _) & _).
  exists d. repeat apply conj; try assumption; lia.
Qed.

(** C6.  The slots of every emitted demand are
    max(1, randint(floor(max_sd/2), max_sd)), hence between 1 and
    [max_sd], for every positive [max_sd]. *)
Theorem slots_in_range (n max_sd : Z) (spInv : float) (nT : Z) (g : G)
    (fuel : nat) (st : loop_state G) :
  1 <= max_sd ->
  allocate fuel n max_sd spInv nT g = Some (OK st) ->
  Forall (fun d =>
            1 <= d_slots d <= max_sd /\
            exists h lo s0 g0 g1,
              int_true_div max_sd 2 = OK h /\ math_floor h = OK lo /\
              rnd_randint lo max_sd g0 = OK (s0, g1) /\
              d_slots d = Z.max 1 s0)
         (lines st).
Proof.
  intros Hmax. apply lines_forall. intros s s' Hpos Hit.
  destruct (iteration_inv n max_sd spInv s s' Hit)
    as (src & g1 & cand & g2 & dsts & g3 & sl & g4 & _ & _ & _ & Hsl & ->).
  eexists. split; [reflexivity | ]. cbn [d_slots].
  split; [apply (draw_slots_bounds _ _ _ _ Hmax Hsl) | ].
  unfold draw_slots in Hsl.
  destruct (int_true_div max_sd 2) as [h | e] eqn:Hh; cbn [bind] in Hsl;
    [ | discriminate].
  destruct (math_floor h) as [lo | e] eqn:Hf; cbn [bind] in Hsl; [ | discriminate].
  destruct (rnd_randint lo max_sd g3) as [[s0 g0] | e] eqn:Hr; cbn [bind] in Hsl;
    [ | discriminate].
  inversion Hsl; subst. exists h, lo, s0, g3, g4.
  repeat apply conj; solve [reflexivity | assumption].
Qed.

(** C7.  With spread 1.0 the multi-destination branch is never taken and
    every emitted demand has exactly one destination. *)
Theorem unit_spread_single_destination (n max_sd nT : Z) (g : G) :
  2 <= n -> 1 <= nT ->
  math_pow_neg1 one = OK one /\
  multi_destination one = false /\
  (forall fuel st, allocate fuel n max_sd one nT g = Some (OK st) ->
     Forall (fun d => d_nDst d = 1 /\ List.length (d_dsts d) = 1%nat) (lines st)).
Proof.
  intros Hn HnT. repeat apply conj.
  - apply pow_neg1_one.
  - reflexivity.
  - intros fuel st. apply lines_forall. intros s s' Hpos Hit.
    destruct (iteration_pass n max_sd one s s' Hn Hpos Hit)
      as (d & Hl & _ & _ & _ & (_ & _ & _ & Hlen & _) & _ & Hsingle & _).
    exists d. specialize (Hsingle eq_refl). repeat apply conj; try assumption. lia.
Qed.

(** C8.  The destination counts of a finished run add up to at most
    [nT], and what is missing from [nT] is less than the largest
    destination count of a pass. *)
Theorem budget_never_overrun (n max_sd : Z) (spInv : float) (nT : Z) (g : G)
    (fuel : nat) (st : loop_state G) :
  2 <= n -> 1 <= nT ->
  allocate fuel n max_sd spInv nT g = Some (OK st) ->
  sum_nDst (lines st) <= nT /\
  nT - sum_nDst (lines st) < max_nDst (lines st).
Proof.
  intros Hn HnT Hrun.
  destruct (allocate_accounted n max_sd nT spInv g fuel st Hn ltac:(lia) Hrun)
    as [(_ & Hs & Hc & Hf) Hz].
  split; [lia | ].
  destruct (lines st) as [ | d l] eqn:El; [simpl in Hs; lia | ].
  pose proof (max_nDst_ge (d :: l) d (or_introl eq_refl)).
  inversion Hf; subst. lia.
Qed.

(** C10.  The budget is consumed exactly: the loop is left with
    [remainingT = 0], the destination counts add up to [nT], and the
    number of demands [nD] lies between 1 and [nT]. *)
Theorem budget_consumed_exactly (n max_sd : Z) (spInv : float) (nT : Z) (g : G) :
  2 <= n -> 1 <= nT ->
  (forall fuel st, allocate fuel n max_sd spInv nT g = Some (OK st) ->
     remainingT st = 0 /\ sum_nDst (lines st) = nT /\
     nD st = Z.of_nat (List.length (lines st)) /\ 1 <= nD st <= nT) /\
  (1 <= max_sd <= 2 ^ 971 -> fanout_ok spInv = true ->
   exists st, allocate (Z.to_nat nT) n max_sd spInv nT g = Some (OK st)).
Proof.
  intros Hn HnT. split.
  - intros fuel st Hrun.
    destruct (allocate_accounted n max_sd nT spInv g fuel st Hn ltac:(lia) Hrun)
      as [(_ & Hs & Hc & Hf) Hz].
    pose proof (length_le_sum n _ Hf).
    repeat apply conj; try lia.
    destruct (lines st); simpl in *; lia.
  - intros Hmax Hok. apply while_loop_total; try assumption.
    cbn [initial_state remainingT]. lia.
Qed.

End AllocatorClaims.

Lemma allocator_terminates_witness :
  exists r, allocate (Z.to_nat 6) 4 5 one 6 (42 : Z) = Some r.
Proof.
  apply (proj1 (proj2 (proj2 (allocator_terminates 4 5 one 6 (42 : Z)
           ltac:(lia) ltac:(lia))))).
Defined.

Lemma emitted_demands_well_formed_witness :
  Forall (fun d => ~ In (d_src d) (d_dsts d) /\ NoDup (d_dsts d) /\
                   1 <= Z.of_nat (List.length (d_dsts d)) <= 6 - 1)
         (lines toy_final).
Proof.
  apply (emitted_demands_well_formed 6 5 (of_Z 4) 17 (7 : Z) 20 toy_final);
    [lia | vm_compute; reflexivity].
Defined.

Lemma slots_in_range_witness :
  Forall (fun d => 1 <= d_slots d <= 5) (lines toy_final).
Proof.
  eapply Forall_impl;
    [ | apply (slots_in_range 6 5 (of_Z 4) 17 (7 : Z) 20 toy_final);
        [lia | vm_compute; reflexivity]].
  intros d Hd. exact (proj1 Hd).
Defined.

Lemma unit_spread_single_destination_witness :
  Forall (fun d => d_nDst d = 1 /\ List.length (d_dsts d) = 1%nat)
         (lines toy_unit_final).
Proof.
  apply (proj2 (proj2 (unit_spread_single_destination 4 5 6 (42 : Z)
           ltac:(lia) ltac:(lia))) 10%nat toy_unit_final).
  vm_compute. reflexivity.
Defined.

Lemma budget_never_overrun_witness :
  sum_nDst (lines toy_final) <= 17 /\
  17 - sum_nDst (lines toy_final) < max_nDst (lines toy_final).
Proof.
  apply (budget_never_overrun 6 5 (of_Z 4) 17 (7 : Z) 20 toy_final);
    [lia | lia | vm_compute; reflexivity].
Defined.

Lemma budget_consumed_exactly_witness :
  remainingT toy_final = 0 /\ sum_nDst (lines toy_final) = 17 /\
  nD toy_final = Z.of_nat (List.length (lines toy_final)) /\
  1 <= nD toy_final <= 17.
Proof.
  apply (proj1 (budget_consumed_exactly 6 5 (of_Z 4) 17 (7 : Z)
           ltac:(lia) ltac:(lia)) 20%nat toy_final).
  vm_compute. reflexivity.
Defined.

(** ** The claims on the parameters and on reproducibility *)


Section ParameterClaims.

Context {G : Type} `{PyRuntime G}.




(** C9.  The files depend on the seed and on the inputs only: whatever
    state the generator is in when the script starts, the same seed,
    parameters and topologies give the same files with the same text. *)
Theorem same_seed_same_files (fuel : nat) (ambient ambient' : G)
    (a : arguments) (tops : list topology) :
  main fuel ambient a tops = main fuel ambient' a tops.
Proof. unfold main. now rewrite (seed_resets (arg_seed a) ambient ambient'). Qed.

End ParameterClaims.


(** * Further properties of the code *)

(** ** Edge cases of the estimator and of the budget *)

Lemma float_gt_one_int (x : float) (v : Z) :
  float_gt_Z x 1 = true -> py_int x = OK v -> 1 <= v.
Proof.
  unfold float_gt_Z, float_cmp_Z.
  destruct x as [s | [ | ] | | [ | ] m e]; try (simpl; discriminate).
  - unfold signed. intros Hgt _. exfalso.
    destruct (Z.leb_spec 0 e) as [He | He].
    + destruct (Z.compare_spec (Zneg m * 2 ^ e) 1) as [Hc | Hc | Hc];
        try discriminate. pose proof (pow2_pos e He). nia.
    + destruct (Z.compare_spec (Zneg m) (1 * 2 ^ (- e))) as [Hc | Hc | Hc];
        try discriminate. pose proof (pow2_nonneg (- e)). lia.
  - intros Hgt Hv. cbn [py_int] in Hv. inversion Hv; subst; clear Hv.
    rewrite trunc_floor_pos. unfold floor_fin, signed in *.
    destruct (Z.leb_spec 0 e) as [He | He].
    + destruct (Z.compare_spec (Zpos m * 2 ^ e) 1) as [Hc | Hc | Hc];
        try discriminate. lia.
    + destruct (Z.compare_spec (Zpos m) (1 * 2 ^ (- e))) as [Hc | Hc | Hc];
        try discriminate.
      apply Z.div_le_lower_bound; [apply Z.pow_pos_nonneg; lia | lia].
Qed.

Lemma scaled_budget_ge_1 (nT_raw : Z) (density : float) (nT : Z) :
  scaled_budget nT_raw density = OK nT -> 1 <= nT.
Proof.
  unfold scaled_budget.
  destruct (int_to_float nT_raw) as [nf | e] eqn:En; cbn [bind]; [ | discriminate].
  destruct (int_to_float_inv _ _ En) as [-> _].
  destruct (float_gt_Z (mul (of_Z nT_raw) density) 1) eqn:Hgt.
  - intros Hv. now apply (float_gt_one_int _ _ Hgt).
  - intros Hv. inversion Hv. lia.
Qed.

(** X1.  The budget is at least 1 whatever the estimate and the factor are, and
    it is exactly 1 unless their product exceeds 1. *)
Theorem budget_at_least_one (nT_raw : Z) (density : float) (nT : Z) :
  scaled_budget nT_raw density = OK nT ->
  1 <= nT /\
  (float_gt_Z (mul (of_Z nT_raw) density) 1 = false -> nT = 1).
Proof.
  intros Hb. split; [exact (scaled_budget_ge_1 _ _ _ Hb) | ].
  revert Hb. unfold scaled_budget.
  destruct (int_to_float nT_raw) as [nf | e] eqn:En; cbn [bind]; [ | discriminate].
  destruct (int_to_float_inv _ _ En) as [-> _].
  intros Hv Hgt. rewrite Hgt in Hv. now inversion Hv.
Qed.

Lemma budget_at_least_one_witness :
  1 <= 1 /\
  (float_gt_Z (mul (of_Z (-7)) two) 1 = false -> 1 = 1).
Proof.
  apply (budget_at_least_one (-7) two 1). vm_compute. reflexivity.
Defined.

(** X2.  A topology without edges gets the estimate 0, hence the budget 1
    whatever the density factor. *)
Theorem edgeless_topology_budget_one (n S max_sd : Z) (density : float) :
  2 <= n <= 2 ^ 256 -> 0 < S <= 2 ^ 256 -> 0 < max_sd <= 2 ^ 256 ->
  calculateMaxNumberOfDemands n 0 S max_sd = OK 0 /\
  demand_budget n 0 S max_sd density = OK 1.
Proof.
  intros Hn HS Hx.
  assert (Hest : calculateMaxNumberOfDemands n 0 S max_sd = OK 0)
    by (now apply estimate_no_edges).
  split; [assumption | ].
  unfold demand_budget. rewrite Hest. cbn [bind]. unfold scaled_budget.
  change (int_to_float 0) with (OK (S754_zero false)). cbn [bind].
  destruct density as [s | s | | s m e]; reflexivity.
Qed.

Lemma edgeless_topology_budget_one_witness :
  calculateMaxNumberOfDemands 5 0 10 3 = OK 0 /\
  demand_budget 5 0 10 3 two = OK 1.
Proof.
  apply (edgeless_topology_budget_one 5 10 3 two); split; try lia;
    vm_compute; discriminate.
Defined.

Lemma no_estimate_below_two_nodes (n m S max_sd : Z) :
  n = 0 \/ n = 1 -> forall v, calculateMaxNumberOfDemands n m S max_sd <> OK v.
Proof.
  intros Hn v.
  assert (Hz : n * (n - 1) = 0) by (destruct Hn; subst; reflexivity).
  unfold calculateMaxNumberOfDemands, calculateGraphDensity. rewrite Hz.
  destruct (int_to_float m); cbn [bind]; discriminate.
Qed.

Lemma no_budget_below_two_nodes (n m S max_sd : Z) (density : float) :
  n = 0 \/ n = 1 -> forall v, demand_budget n m S max_sd density <> OK v.
Proof.
  intros Hn v. unfold demand_budget.
  destruct (calculateMaxNumberOfDemands n m S max_sd) as [r | e] eqn:E;
    cbn [bind]; [now elim (no_estimate_below_two_nodes n m S max_sd Hn r) | discriminate].
Qed.

(** X3.  With fewer than two nodes the density is a division by zero: for
    n = 0 or n = 1 the estimator raises ZeroDivisionError (OverflowError
    when m does not fit a double), and so does the budget. *)
Theorem degenerate_topology_raises (n m S max_sd : Z) (density : float) :
  n = 0 \/ n = 1 ->
  (forall v, calculateMaxNumberOfDemands n m S max_sd <> OK v) /\
  (forall v, demand_budget n m S max_sd density <> OK v) /\
  (0 <= m <= 2 ^ 1023 ->
   calculateGraphDensity n m = Raise ZeroDivisionError /\
   calculateMaxNumberOfDemands n m S max_sd = Raise ZeroDivisionError /\
   demand_budget n m S max_sd density = Raise ZeroDivisionError).
Proof.
  intros Hn.
  assert (Hz : n * (n - 1) = 0) by (destruct Hn; subst; reflexivity).
  repeat apply conj.
  - now apply no_estimate_below_two_nodes.
  - now apply no_budget_below_two_nodes.
  - intros Hm.
    assert (Hd' : calculateGraphDensity n m = Raise ZeroDivisionError).
    { unfold calculateGraphDensity. rewrite Hz.
      destruct (int_to_float_ub m 1023) as [Em _]; try lia.
      rewrite Em. reflexivity. }
    assert (He' : calculateMaxNumberOfDemands n m S max_sd = Raise ZeroDivisionError)
      by (unfold calculateMaxNumberOfDemands; rewrite Hd'; reflexivity).
    repeat apply conj; try assumption.
    unfold demand_budget. rewrite He'. reflexivity.
Qed.

Lemma degenerate_topology_raises_witness :
  (forall v, calculateMaxNumberOfDemands 1 0 10 5 <> OK v) /\
  (forall v, demand_budget 1 0 10 5 two <> OK v) /\
  (0 <= 0 <= 2 ^ 1023 ->
   calculateGraphDensity 1 0 = Raise ZeroDivisionError /\
   calculateMaxNumberOfDemands 1 0 10 5 = Raise ZeroDivisionError /\
   demand_budget 1 0 10 5 two = Raise ZeroDivisionError).
Proof.
  apply (degenerate_topology_raises 1 0 10 5 two). right. reflexivity.
Defined.

(** X4.  With [max_sd = 0] the last division of the estimator raises
    ZeroDivisionError. *)
Theorem zero_max_sd_raises (n m S : Z) :
  2 <= n <= 2 ^ 256 -> 0 <= m <= 2 ^ 256 -> 0 < S <= 2 ^ 256 ->
  calculateMaxNumberOfDemands n m S 0 = Raise ZeroDivisionError.
Proof.
  intros Hn Hm HS.
  unfold calculateMaxNumberOfDemands, calculateGraphDensity.
  destruct (int_to_float_ub m 256) as [Em _]; try lia.
  rewrite Em. cbn [bind].
  assert (Hnn : 0 <= n * (n - 1) <= 2 ^ 512).
  { change (2 ^ 512) with (2 ^ 256 * 2 ^ 256). nia. }
  destruct (int_to_float_ub (n * (n - 1)) 512) as [Ed _]; try lia.
  rewrite Ed. cbn [bind].
  destruct (int_to_float_pos _ 1 _ ltac:(lia) (node_pairs n ltac:(lia)) Ed)
    as [Pden _].
  rewrite (float_div_pos _ _ Pden). cbn [bind].
  destruct (int_to_float_ub n 256) as [En _]; try lia.
  rewrite En. cbn [bind].
  destruct (int_to_float_ub S 256) as [Es _]; try lia.
  rewrite Es. cbn [bind]. reflexivity.
Qed.

Lemma zero_max_sd_raises_witness :
  calculateMaxNumberOfDemands 4 3 10 0 = Raise ZeroDivisionError.
Proof.
  apply (zero_max_sd_raises 4 3 10); split; try lia; vm_compute; discriminate.
Defined.

(** ** Further properties of the allocator *)

Section AllocatorExtras.

Context {G : Type} `{PyRuntime G}.

Lemma allocate_needs_a_node (n max_sd : Z) (spInv : float) (nT : Z) (g : G)
    (fuel : nat) (st : loop_state G) :
  1 <= nT -> allocate fuel n max_sd spInv nT g = Some (OK st) -> 1 <= n.
Proof.
  intros HnT. unfold allocate. destruct fuel as [ | fuel].
  - simpl. destruct (Z.ltb_spec 0 nT); [discriminate | lia].
  - rewrite while_loop_step by (cbn [initial_state remainingT]; lia).
    destruct (iteration n max_sd spInv (initial_state nT g)) as [st1 | e] eqn:Hit;
      [ | discriminate].
    intros _. destruct (iteration_inv _ _ _ _ _ Hit)
      as (src & g1 & _ & _ & _ & _ & _ & _ & Hs & _).
    destruct (sample_inv _ _ _ _ _ Hs) as [_ (rest & Hp)].
    assert (Hin : In src (range n)) by (apply (Permutation_in src Hp); now left).
    apply range_In in Hin. lia.
Qed.

(** X5.  On fewer than two nodes the loop never comes to an end: with no node
    [random.sample] raises ValueError, with one node every pass takes 0
    from the budget. *)
Theorem no_run_below_two_nodes (n max_sd : Z) (spInv : float) (nT : Z) (g : G) :
  n < 2 -> 1 <= nT ->
  (forall fuel st, allocate fuel n max_sd spInv nT g <> Some (OK st)) /\
  (n <= 0 -> forall fuel,
     allocate (S fuel) n max_sd spInv nT g = Some (Raise ValueError)).
Proof.
  intros Hn HnT. split.
  - intros fuel st Hrun.
    pose proof (allocate_needs_a_node _ _ _ _ _ _ _ HnT Hrun) as H1.
    assert (n = 1) by lia. subst n. unfold allocate in Hrun.
    apply (while_loop_invariant (fun s => remainingT s = nT) 1 max_sd spInv)
      in Hrun.
    + cbn beta in Hrun. lia.
    + intros s s' Hs Hpos Hit.
      destruct (iteration_inv _ _ _ _ _ Hit)
        as (src & g1 & cand & g2 & dsts & g3 & sl & g4 & _ & Hc & _ & _ & ->).
      pose proof (draw_candidate_ge_1 _ _ _ _ Hc). cbn [remainingT]. lia.
    + reflexivity.
  - intros Hn0 fuel. unfold allocate.
    rewrite while_loop_step by (cbn [initial_state remainingT]; lia).
    unfold iteration. rewrite sample_error; [reflexivity | ].
    rewrite range_length. lia.
Qed.

(** X6.  Every source and every destination is a node of the topology, and
    [nDst] is the number of destinations listed. *)
Theorem demands_name_nodes (n max_sd : Z) (spInv : float) (nT : Z) (g : G)
    (fuel : nat) (st : loop_state G) :
  2 <= n ->
  allocate fuel n max_sd spInv nT g = Some (OK st) ->
  Forall (fun d => 0 <= d_src d < n /\
                   (forall x, In x (d_dsts d) -> 0 <= x < n) /\
                   Z.of_nat (List.length (d_dsts d)) = d_nDst d)
         (lines st).
Proof.
  intros Hn. apply lines_forall. intros s s' Hpos Hit.
  destruct (iteration_pass n max_sd spInv s s' Hn Hpos Hit)
    as (d & Hl & _ & _ & _ & (Hsrc & _ & _ & Hlen & Hin) & _).
  exists d. repeat apply conj; try assumption; lia.
Qed.

Lemma sum_le_length_times (n : Z) (l : list demand) :
  Forall (fun d => 1 <= d_nDst d <= n - 1) l ->
  sum_nDst l <= Z.of_nat (List.length l) * (n - 1).
Proof.
  induction 1 as [ | d l Hd _ IH]; [simpl; lia | ].
  unfold sum_nDst in *. cbn [List.length fold_right].
  rewrite Nat2Z.inj_succ. nia.
Qed.

Lemma sum_of_ones (l : list demand) :
  Forall (fun d => d_nDst d = 1) l -> sum_nDst l = Z.of_nat (List.length l).
Proof.
  induction 1 as [ | d l Hd _ IH]; [reflexivity | ].
  unfold sum_nDst in *. cbn [List.length fold_right].
  rewrite Nat2Z.inj_succ. lia.
Qed.

(** X7.  The number of demands of a finished run is at least nT / (n-1), and it
    is nT itself when the spread test selects single destinations. *)
Theorem demand_count_bounds (n max_sd : Z) (spInv : float) (nT : Z) (g : G)
    (fuel : nat) (st : loop_state G) :
  2 <= n -> 1 <= nT ->
  allocate fuel n max_sd spInv nT g = Some (OK st) ->
  nT <= nD st * (n - 1) /\
  (multi_destination spInv = false -> nD st = nT).
Proof.
  intros Hn HnT Hrun.
  destruct (allocate_accounted n max_sd nT spInv g fuel st Hn ltac:(lia) Hrun)
    as [(_ & Hs & Hc & Hf) Hz].
  split.
  - pose proof (sum_le_length_times n _ Hf). lia.
  - intros Hm.
    assert (Hone : Forall (fun d => d_nDst d = 1) (lines st)).
    { revert Hrun. apply lines_forall. intros s s' Hpos Hit.
      destruct (iteration_pass n max_sd spInv s s' Hn Hpos Hit)
        as (d & Hl & _ & _ & _ & _ & _ & Hsingle & _).
      exists d. auto. }
    pose proof (sum_of_ones _ Hone). lia.
Qed.

End AllocatorExtras.

Lemma no_run_below_two_nodes_witness :
  (forall fuel st, allocate fuel 1 5 one 3 (42 : Z) <> Some (OK st)) /\
  (1 <= 0 -> forall fuel,
     allocate (S fuel) 1 5 one 3 (42 : Z) = Some (Raise ValueError)).
Proof.
  apply (no_run_below_two_nodes 1 5 one 3 (42 : Z)); lia.
Defined.

Lemma demands_name_nodes_witness :
  Forall (fun d => 0 <= d_src d < 6 /\
                   (forall x, In x (d_dsts d) -> 0 <= x < 6) /\
                   Z.of_nat (List.length (d_dsts d)) = d_nDst d)
         (lines toy_final).
Proof.
  apply (demands_name_nodes 6 5 (of_Z 4) 17 (7 : Z) 20 toy_final);
    [lia | vm_compute; reflexivity].
Defined.

Lemma demand_count_bounds_witness :
  17 <= nD toy_final * (6 - 1) /\
  (multi_destination (of_Z 4) = false -> nD toy_final = 17).
Proof.
  apply (demand_count_bounds 6 5 (of_Z 4) 17 (7 : Z) 20 toy_final);
    [lia | lia | vm_compute; reflexivity].
Defined.

(** ** From the parameters to the files *)

Lemma in_unit_interval_finite (p : float) :
  in_unit_interval p = true -> pos_finite p.
Proof.
  unfold in_unit_interval, float_gt_Z, float_le_Z, float_cmp_Z.
  destruct p as [s | [ | ] | | [ | ] m e]; try (simpl; discriminate);
    try exact (fun _ => I).
  unfold signed. intros Hr. apply andb_true_iff in Hr. destruct Hr as [Hr _].
  exfalso. destruct (Z.leb_spec 0 e) as [He | He].
  - destruct (Z.compare_spec (Zneg m * 2 ^ e) 0) as [Hc | Hc | Hc];
      try discriminate; try (pose proof (pow2_pos e He); nia).
  - destruct (Z.compare_spec (Zneg m) (0 * 2 ^ (- e))) as [Hc | Hc | Hc];
      try discriminate; try lia.
Qed.

Lemma valid_exponent (s : bool) (m : positive) (e : Z) :
  valid_binary prec emax (S754_finite s m e) = true -> -1074 <= e.
Proof.
  unfold valid_binary, bounded, canonical_mantissa. intros Hv.
  apply andb_true_iff in Hv. destruct Hv as [Hc _].
  apply Z.eqb_eq in Hc. rewrite fexp_fexp64 in Hc. unfold fexp64 in Hc. lia.
Qed.

Lemma demand_budget_ge_1 (n m S max_sd : Z) (density : float) (nT : Z) :
  demand_budget n m S max_sd density = OK nT -> 1 <= nT.
Proof.
  unfold demand_budget.
  destruct (calculateMaxNumberOfDemands n m S max_sd) as [raw | e]; cbn [bind];
    [ | discriminate].
  intros Hb. now apply (scaled_budget_ge_1 raw density nT).
Qed.

(** X8.  [max_sd = ceil(percentage * S)] is at least 1 for a percentage in
    (0, 1] and a slot count of at least 1, and the budget is at least 1. *)
Theorem instance_size_positive (percentage : float) (t : topology) (S : Z)
    (density : float) (max_sd nT : Z) :
  valid_binary prec emax percentage = true ->
  in_unit_interval percentage = true -> 1 <= S ->
  instance_size percentage t S density = OK (max_sd, nT) ->
  1 <= max_sd /\ 1 <= nT.
Proof.
  intros Hv Hp HS. unfold instance_size.
  destruct (int_to_float S) as [sf | e] eqn:Es; cbn [bind]; [ | discriminate].
  destruct (int_to_float_pos S 0 _ ltac:(lia) ltac:(change (2 ^ 0) with 1; lia) Es)
    as [Ps Ls].
  pose proof (in_unit_interval_finite _ Hp) as Pp.
  destruct percentage as [ | | | [ | ] mp ep]; simpl in Pp; try tauto.
  pose proof (valid_exponent _ _ _ Hv) as Hep.
  assert (Lp : lb ep (S754_finite false mp ep))
    by (cbn [lb]; rewrite Z.sub_diag; simpl; lia).
  pose proof (mul_lb ep 0 _ _ Lp Ls ltac:(lia)) as Lx.
  assert (Px : positive_float (mul (S754_finite false mp ep) sf)).
  { destruct (mul_positive (S754_finite false mp ep) sf I)
      as [P | Z0]; [destruct sf as [ | | | [ | ] ]; simpl in Ps; tauto | assumption | ].
    rewrite Z0 in Lx. simpl in Lx. tauto. }
  destruct (mul (S754_finite false mp ep) sf) as [ | [ | ] | | [ | ] mx ex];
    simpl in Px; try tauto; cbn [math_ceil bind]; try discriminate.
  destruct (demand_budget (top_n t) (top_m t) S (ceil_fin false mx ex) density)
    as [b | e] eqn:Eb; cbn [bind]; [ | discriminate].
  intros Hr. inversion Hr; subst. split; [apply ceil_fin_pos | ].
  now apply (demand_budget_ge_1 _ _ _ _ _ _ Eb).
Qed.

Lemma instance_size_positive_witness :
  1 <= 5 /\ 1 <= 6.
Proof.
  apply (instance_size_positive half small_topology 10 two 5 6);
    try (vm_compute; reflexivity). lia.
Defined.

Section MainProofs.

Context {G : Type} `{PyRuntime G}.

Lemma draw_slots_floor_one (max_sd : Z) (g g' : G) (s : Z) :
  draw_slots max_sd g = OK (s, g') -> 1 <= s <= Z.max 1 max_sd.
Proof.
  unfold draw_slots.
  destruct (int_true_div max_sd 2) as [h | e]; cbn [bind]; [ | discriminate].
  destruct (math_floor h) as [lo | e]; cbn [bind]; [ | discriminate].
  destruct (rnd_randint lo max_sd g) as [[s0 g0] | e] eqn:Hr; cbn [bind];
    [ | discriminate].
  intros Hs. inversion Hs; subst. apply randint_inv in Hr. lia.
Qed.

Lemma instance_size_nodes (percentage : float) (t : topology) (S : Z)
    (density : float) (max_sd nT : Z) :
  instance_size percentage t S density = OK (max_sd, nT) ->
  1 <= nT /\ top_n t <> 0 /\ top_n t <> 1.
Proof.
  unfold instance_size.
  destruct (int_to_float S) as [sf | e]; cbn [bind]; [ | discriminate].
  destruct (math_ceil (mul percentage sf)) as [x | e]; cbn [bind]; [ | discriminate].
  destruct (demand_budget (top_n t) (top_m t) S x density) as [b | e] eqn:Eb;
    cbn [bind]; [ | discriminate].
  intros Hr. inversion Hr; subst. split; [now apply (demand_budget_ge_1 _ _ _ _ _ _ Eb) | ].
  split; intros Hn;
    apply (no_budget_below_two_nodes (top_n t) (top_m t) S max_sd density
             ltac:(lia) nT); assumption.
Qed.

Lemma finished_run_complete (n max_sd : Z) (spInv : float) (nT : Z) (g : G)
    (fuel : nat) (st : loop_state G) :
  1 <= nT -> n <> 0 -> n <> 1 ->
  allocate fuel n max_sd spInv nT g = Some (OK st) ->
  lines st <> [] /\ nD st = Z.of_nat (List.length (lines st)) /\
  sum_nDst (lines st) = nT /\
  Forall (fun d => ~ In (d_src d) (d_dsts d) /\ NoDup (d_dsts d) /\
                   Z.of_nat (List.length (d_dsts d)) = d_nDst d /\
                   1 <= d_nDst d /\
                   1 <= d_slots d <= Z.max 1 max_sd) (lines st).
Proof.
  intros HnT Hn0 Hn1 Hrun.
  pose proof (allocate_needs_a_node _ _ _ _ _ _ _ HnT Hrun) as Hn.
  assert (Hn2 : 2 <= n) by lia.
  destruct (allocate_accounted n max_sd nT spInv g fuel st Hn2 ltac:(lia) Hrun)
    as [(_ & Hs & Hc & Hf) Hz].
  repeat apply conj.
  - intros Hnil. rewrite Hnil in Hs. simpl in Hs. lia.
  - assumption.
  - lia.
  - revert Hrun. apply lines_forall. intros s s' Hpos Hit.
    destruct (iteration_pass n max_sd spInv s s' Hn2 Hpos Hit)
      as (d & Hl & _ & _ & Hd & (_ & Hsrc & Hnd & Hlen & _) & _).
    exists d. split; [assumption | ].
    destruct (iteration_inv _ _ _ _ _ Hit)
      as (src & g1 & cand & g2 & dsts & g3 & sl & g4 & _ & _ & _ & Hsl & Hst).
    rewrite Hst in Hl. cbn [lines] in Hl. apply app_inj_tail in Hl.
    destruct Hl as [_ Hd']. rewrite <- Hd' in *. cbn [d_slots d_src d_dsts d_nDst] in *.
    repeat apply conj; try assumption; try lia;
      apply (draw_slots_floor_one _ _ _ _ Hsl).
Qed.

Lemma write_instance_cases (fuel : nat) (seed : Z) (density percentage : float)
    (t : topology) (S : Z) (sp : float) (g : G) :
  let r := write_instance fuel seed density percentage t S sp g in
  (fst r = [] /\ forall g', snd r <> Done g') \/
  (exists f, fst r = [f] /\ file_key f = (percentage, top_name t, S, sp) /\
             ((header_only seed f /\ forall g', snd r <> Done g') \/
              (complete_file seed f /\ exists g', snd r = Done g'))).
Proof.
  unfold write_instance.
  destruct (instance_size percentage t S density) as [[max_sd nT] | e] eqn:Ei.
  2: { left. split; [reflexivity | discriminate]. }
  destruct (instance_size_nodes _ _ _ _ _ _ Ei) as (HnT & Hn0 & Hn1).
  right.
  destruct (math_pow_neg1 sp) as [spInv | e].
  2: { eexists. split; [reflexivity | ]. split; [reflexivity | ].
       left. split; [reflexivity | discriminate]. }
  destruct (allocate fuel (top_n t) max_sd spInv nT g) as [[st | e] | ] eqn:Ea.
  - eexists. split; [reflexivity | ]. split; [reflexivity | ].
    right. split; [ | eexists; reflexivity].
    destruct (finished_run_complete _ _ _ _ _ _ _ HnT Hn0 Hn1 Ea)
      as (Hne & HnD & Hsum & Hall).
    exists (lines st). cbn [f_text f_S f_nT f_max_sd].
    rewrite <- HnD. repeat apply conj; solve [assumption | reflexivity].
  - eexists. split; [reflexivity | ]. split; [reflexivity | ].
    left. split; [reflexivity | discriminate].
  - eexists. split; [reflexivity | ]. split; [reflexivity | ].
    left. split; [reflexivity | discriminate].
Qed.

Lemma run_tasks_spec (fuel : nat) (seed : Z) (density : float)
    (tasks : list (float * topology * Z * float)) :
  forall g,
    let r := run_tasks fuel seed density tasks g in
    Forall (fun f => header_only seed f \/ complete_file seed f) (fst r) /\
    (forall g', snd r = Done g' ->
       Forall (complete_file seed) (fst r) /\
       map file_key (fst r) = map task_key tasks) /\
    exists k, map file_key (fst r) = firstn k (map task_key tasks).
Proof.
  induction tasks as [ | [[[percentage t] slots] sp] rest IH]; intros g.
  - simpl. repeat apply conj; [constructor | | exists 0%nat; reflexivity].
    intros g' _. split; [constructor | reflexivity].
  - cbn [run_tasks].
    pose proof (write_instance_cases fuel seed density percentage t slots sp g) as Hw.
    destruct (write_instance fuel seed density percentage t slots sp g) as [fs st].
    cbn [fst snd] in Hw.
    destruct Hw as [[Hfs Hst] | (f & Hfs & Hkey & [[Hho Hst] | [Hc (g1 & Hst)]])];
      subst fs.
    + destruct st as [g1 | e | ]; [now elim (Hst g1) | | ];
        (cbn [fst snd]; repeat apply conj;
         [constructor | discriminate | exists 0%nat; reflexivity]).
    + destruct st as [g1 | e | ]; [now elim (Hst g1) | | ];
        (cbn [fst snd]; repeat apply conj;
         [constructor; [now left | constructor] | discriminate
         | exists 1%nat; cbn [map firstn task_key]; now rewrite Hkey]).
    + subst st. specialize (IH g1). cbn beta zeta in IH.
      destruct (run_tasks fuel seed density rest g1) as [fs' st'].
      cbn [fst snd] in *. destruct IH as (Hall & Hdone & (k & Hk)).
      repeat apply conj.
      * constructor; [now right | assumption].
      * intros g' Hg'. destruct (Hdone g' Hg') as [Hc' Hm].
        split; [constructor; assumption | ].
        cbn [app map task_key]. now rewrite Hkey, Hm.
      * exists (S k). cbn [app map firstn task_key]. now rewrite Hkey, Hk.
Qed.

(** X9.  Whatever the parameters and the topologies, each file the script
    writes is complete, or holds the header only when the run was aborted
    in it; a run that ends normally leaves complete files only. *)
Theorem written_files_well_formed (fuel : nat) (ambient : G) (a : arguments)
    (tops : list topology) :
  Forall (fun f => header_only (arg_seed a) f \/ complete_file (arg_seed a) f)
         (fst (main fuel ambient a tops)) /\
  (forall g, snd (main fuel ambient a tops) = Done g ->
     Forall (complete_file (arg_seed a)) (fst (main fuel ambient a tops))).
Proof.
  unfold main. destruct (check_parameters a) as [sw | e].
  - destruct (run_tasks_spec fuel (arg_seed a) (arg_density a) (tasks_of sw tops)
                (rnd_seed (arg_seed a) ambient)) as (Hall & Hdone & _).
    split; [assumption | ]. intros g Hg. now apply (Hdone g).
  - cbn [fst snd]. split; [constructor | discriminate].
Qed.

Lemma flat_map_length_const {A B : Type} (f : A -> list B) (k : nat)
    (l : list A) :
  (forall x, List.length (f x) = k) ->
  List.length (flat_map f l) = (List.length l * k)%nat.
Proof.
  intros Hf. induction l as [ | x l IH]; [reflexivity | ].
  cbn [flat_map List.length]. rewrite length_app, Hf, IH. lia.
Qed.

Lemma tasks_of_length (sw : sweep) (tops : list topology) :
  List.length (tasks_of sw tops) =
  (List.length (max_percentages_of_slots_by_demand sw) * List.length tops *
   List.length (avaliable_S sw) * List.length (spreads sw))%nat.
Proof.
  unfold tasks_of.
  rewrite (flat_map_length_const _
             (List.length tops * List.length (avaliable_S sw) *
              List.length (spreads sw))%nat); [lia | ].
  intros p.
  rewrite (flat_map_length_const _
             (List.length (avaliable_S sw) * List.length (spreads sw))%nat);
    [lia | ].
  intros t.
  rewrite (flat_map_length_const _ (List.length (spreads sw))); [lia | ].
  intros s. apply length_map.
Qed.

(** X10.  The files come in the order of the sweep (percentage, then topology,
    then slot count, then spread), one per combination and without gaps
    up to the point the run stops; a run that ends normally has written
    one file for every combination. *)
Theorem files_follow_sweep_order (fuel : nat) (ambient : G) (a : arguments)
    (tops : list topology) (sw : sweep) :
  check_parameters a = OK sw ->
  (exists k, map file_key (fst (main fuel ambient a tops)) =
             firstn k (map task_key (tasks_of sw tops))) /\
  (forall g, snd (main fuel ambient a tops) = Done g ->
     map file_key (fst (main fuel ambient a tops)) =
       map task_key (tasks_of sw tops) /\
     List.length (fst (main fuel ambient a tops)) =
       (List.length (max_percentages_of_slots_by_demand sw) * List.length tops *
        List.length (avaliable_S sw) * List.length (spreads sw))%nat).
Proof.
  intros Hc. unfold main. rewrite Hc.
  destruct (run_tasks_spec fuel (arg_seed a) (arg_density a) (tasks_of sw tops)
              (rnd_seed (arg_seed a) ambient)) as (_ & Hdone & Hk).
  split; [assumption | ]. intros g Hg. destruct (Hdone g Hg) as [_ Hm].
  split; [assumption | ].
  rewrite <- tasks_of_length, <- (length_map task_key), <- Hm. now rewrite length_map.
Qed.

(** X11.  When no given slot count is positive nothing is reported and nothing
    is written. *)
Theorem no_valid_slot_count_no_file (fuel : nat) (ambient : G) (a : arguments)
    (tops : list topology) (l : list Z) :
  density_in_range (arg_density a) = true ->
  arg_slots a = Some l -> (forall s, In s l -> s <= 0) ->
  main fuel ambient a tops = ([], Done (rnd_seed (arg_seed a) ambient)).
Proof.
  intros Hd Hl Hneg. unfold main, check_parameters. rewrite Hd, Hl. cbn [negb].
  assert (Hnil : filter (fun s => 0 <? s) (set_iter_Z l) = []).
  { destruct (filter (fun s => 0 <? s) (set_iter_Z l)) as [ | s r] eqn:E;
      [reflexivity | exfalso].
    assert (Hin : In s (filter (fun s => 0 <? s) (set_iter_Z l)))
      by (rewrite E; now left).
    apply filter_In in Hin. destruct Hin as [Hin Hpos].
    apply (proj1 (set_iter_Z_In l s)) in Hin. apply Z.ltb_lt in Hpos.
    specialize (Hneg s Hin). lia. }
  rewrite Hnil. unfold tasks_of. cbn [avaliable_S flat_map].
  assert (Hempty : forall (A B : Type) (xs : list A),
             flat_map (fun _ : A => @nil B) xs = []).
  { intros A B xs. induction xs as [ | x xs IH]; [reflexivity | exact IH]. }
  rewrite Hempty, Hempty. reflexivity.
Qed.

End MainProofs.

Lemma files_follow_sweep_order_witness :
  let sw := {| avaliable_S := [10; 20];
               max_percentages_of_slots_by_demand := [half];
               spreads := [one] |} in
  (exists k,
     map file_key (fst (main 100 (0 : Z) two_slot_counts [ring_topology])) =
     firstn k (map task_key (tasks_of sw [ring_topology]))) /\
  (forall g, snd (main 100 (0 : Z) two_slot_counts [ring_topology]) = Done g ->
     map file_key (fst (main 100 (0 : Z) two_slot_counts [ring_topology])) =
       map task_key (tasks_of sw [ring_topology]) /\
     List.length (fst (main 100 (0 : Z) two_slot_counts [ring_topology])) =
       (List.length (max_percentages_of_slots_by_demand sw) *
        List.length [ring_topology] *
        List.length (avaliable_S sw) * List.length (spreads sw))%nat).
Proof.
  intros sw.
  apply (files_follow_sweep_order 100 (0 : Z) two_slot_counts [ring_topology] sw).
  vm_compute. reflexivity.
Defined.

Lemma no_valid_slot_count_no_file_witness :
  main 100 (0 : Z)
    {| arg_seed := 7; arg_slots := Some [-5; 0]; arg_percents := None;
       arg_density := two; arg_spread := [one] |} [ring_topology] =
  ([], Done (rnd_seed 7 (0 : Z))).
Proof.
  apply (no_valid_slot_count_no_file 100 (0 : Z)
           {| arg_seed := 7; arg_slots := Some [-5; 0]; arg_percents := None;
              arg_density := two; arg_spread := [one] |} [ring_topology] [-5; 0]).
  - vm_compute. reflexivity.
  - reflexivity.
  - intros s [<- | [<- | []]]; lia.
Defined.

(** ** getPair *)

Section GetPairProofs.

Context {G : Type} `{PyRuntime G}.

Lemma sample_pair_inv (n : Z) (g g' : G) (src dst : Z) :
  sample_pair n g = OK (src, dst, g') ->
  src <> dst /\ 0 <= src < n /\ 0 <= dst < n.
Proof.
  unfold sample_pair.
  destruct (rnd_sample (range n) 2 g) as [[l g1] | e] eqn:Hs; cbn [bind];
    [ | discriminate].
  destruct l as [ | a [ | b [ | ? ?]]]; try discriminate.
  intros Hr. inversion Hr; subst; clear Hr.
  destruct (sample_inv _ _ _ _ _ Hs) as [_ (rest & Hp)].
  assert (HND : NoDup ([src; dst] ++ rest))
    by (apply (Permutation_NoDup (Permutation_sym Hp)), range_NoDup).
  apply NoDup_app_remove_r in HND. inversion HND as [ | ? ? Hnotin _]; subst.
  assert (Hsrc : In src (range n)) by (apply (Permutation_in src Hp); now left).
  assert (Hdst : In dst (range n))
    by (apply (Permutation_in dst Hp); right; now left).
  apply range_In in Hsrc, Hdst.
  split; [ | split; assumption].
  intros ->. apply Hnotin. now left.
Qed.

Lemma sample_pair_total (n : Z) (g : G) :
  2 <= n -> exists src dst g', sample_pair n g = OK (src, dst, g').
Proof.
  intros Hn. unfold sample_pair.
  destruct (sample_total (range n) 2 g) as (l & g1 & Hs).
  { rewrite range_length. lia. }
  rewrite Hs. cbn [bind].
  destruct (sample_inv _ _ _ _ _ Hs) as [Hl _].
  destruct l as [ | a [ | b [ | ? ?]]]; cbn [List.length] in Hl; try lia. eauto.
Qed.

Lemma sample_pair_error (n : Z) (g : G) :
  n < 2 -> sample_pair n g = Raise ValueError.
Proof.
  intros Hn. unfold sample_pair. rewrite sample_error; [reflexivity | ].
  rewrite range_length. lia.
Qed.

Lemma getPair_loop_inv (n : Z) (used : used_dict) :
  forall fuel src dst g src' dst' g',
    src <> dst -> 0 <= src < n -> 0 <= dst < n ->
    getPair_loop fuel n used src dst g = Some (OK (src', dst', g')) ->
    src' <> dst' /\ 0 <= src' < n /\ 0 <= dst' < n /\
    exists l, dict_get used src' = Some l /\ ~ In dst' l.
Proof.
  induction fuel as [ | fuel IH]; intros src dst g src' dst' g' Hne Hs Hd;
    cbn [getPair_loop];
    destruct (dict_get used src) as [l | ] eqn:Hget; try discriminate;
    destruct (existsb (Z.eqb dst) l) eqn:Hex; try discriminate.
  - intros Hr. inversion Hr; subst. repeat apply conj; try assumption; try lia.
    exists l. split; [assumption | ]. intros Hin.
    assert (existsb (Z.eqb dst') l = true)
      by (apply existsb_exists; exists dst'; split; [assumption | apply Z.eqb_refl]).
    congruence.
  - destruct (sample_pair n g) as [[[s1 d1] g1] | e] eqn:Hsp; [ | discriminate].
    destruct (sample_pair_inv _ _ _ _ _ Hsp) as (Hne1 & Hs1 & Hd1).
    now apply IH.
  - intros Hr. inversion Hr; subst. repeat apply conj; try assumption; try lia.
    exists l. split; [assumption | ]. intros Hin.
    assert (existsb (Z.eqb dst') l = true)
      by (apply existsb_exists; exists dst'; split; [assumption | apply Z.eqb_refl]).
    congruence.
Qed.

(** X12.  The pair [getPair] returns is made of two different nodes, and with a
    [used_dict] the second one is not among the nodes recorded for the
    first. *)
Theorem getPair_fresh_pair (fuel : nat) (n : Z) (used : option used_dict)
    (g g' : G) (src dst : Z) :
  getPair fuel n used g = Some (OK (src, dst, g')) ->
  src <> dst /\ 0 <= src < n /\ 0 <= dst < n /\
  (forall d, used = Some d ->
     exists l, dict_get d src = Some l /\ ~ In dst l).
Proof.
  unfold getPair.
  destruct (sample_pair n g) as [[[s1 d1] g1] | e] eqn:Hsp; [ | discriminate].
  destruct (sample_pair_inv _ _ _ _ _ Hsp) as (Hne1 & Hs1 & Hd1).
  destruct used as [d | ].
  - intros Hr.
    destruct (getPair_loop_inv n d fuel s1 d1 g1 src dst g' Hne1 Hs1 Hd1 Hr)
      as (Hne & Hs & Hd & Hl).
    repeat apply conj; try assumption; try lia.
    intros d0 Hd0. inversion Hd0; subst. assumption.
  - intros Hr. inversion Hr; subst. repeat apply conj; try assumption; try lia.
    discriminate.
Qed.

(** X13.  On fewer than two nodes [getPair] raises ValueError; on two or more and
    without a [used_dict] it returns at once; with an empty [used_dict] the
    lookup of the first node raises KeyError. *)
Theorem getPair_edge_cases (fuel : nat) (n : Z) (g : G) :
  (n < 2 -> forall used, getPair fuel n used g = Some (Raise ValueError)) /\
  (2 <= n -> exists src dst g', getPair fuel n None g = Some (OK (src, dst, g'))) /\
  (2 <= n -> getPair fuel n (Some []) g = Some (Raise KeyError)).
Proof.
  repeat apply conj.
  - intros Hn used. unfold getPair. now rewrite sample_pair_error.
  - intros Hn. unfold getPair.
    destruct (sample_pair_total n g Hn) as (src & dst & g' & Hs). rewrite Hs. eauto.
  - intros Hn. unfold getPair.
    destruct (sample_pair_total n g Hn) as (src & dst & g' & Hs). rewrite Hs.
    destruct fuel; reflexivity.
Qed.

(** X14.  When every pair is already in the [used_dict], [getPair] draws for
    ever: no number of draws gives a pair or an exception. *)
Theorem getPair_no_pair_left (n : Z) (used : used_dict) (g : G) :
  2 <= n ->
  (forall src dst, 0 <= src < n -> 0 <= dst < n -> src <> dst ->
     exists l, dict_get used src = Some l /\ In dst l) ->
  forall fuel, getPair fuel n (Some used) g = None.
Proof.
  intros Hn Hfull fuel. unfold getPair.
  destruct (sample_pair_total n g Hn) as (src & dst & g1 & Hs). rewrite Hs.
  destruct (sample_pair_inv _ _ _ _ _ Hs) as (Hne & Hsrc & Hdst).
  clear Hs. revert src dst g1 Hne Hsrc Hdst.
  induction fuel as [ | fuel IH]; intros src dst g1 Hne Hsrc Hdst;
    cbn [getPair_loop];
    destruct (Hfull src dst Hsrc Hdst Hne) as (l & Hget & Hin); rewrite Hget;
    assert (Hex : existsb (Z.eqb dst) l = true)
      by (apply existsb_exists; exists dst; split; [assumption | apply Z.eqb_refl]);
    rewrite Hex; [reflexivity | ].
  destruct (sample_pair_total n g1 Hn) as (src' & dst' & g2 & Hs). rewrite Hs.
  destruct (sample_pair_inv _ _ _ _ _ Hs) as (Hne' & Hsrc' & Hdst').
  now apply IH.
Qed.

End GetPairProofs.

Lemma getPair_fresh_pair_witness :
  1 <> 2 /\ 0 <= 1 < 4 /\ 0 <= 2 < 4 /\
  (forall d, Some [(0, [1; 2; 3]); (1, [0]); (2, []); (3, [])] = Some d ->
     exists l, dict_get d 1 = Some l /\ ~ In 2 l).
Proof.
  apply (getPair_fresh_pair 10 4
           (Some [(0, [1; 2; 3]); (1, [0]); (2, []); (3, [])]) (5 : Z) 1222621274).
  vm_compute. reflexivity.
Defined.

Lemma getPair_edge_cases_witness :
  getPair 10 1 None (5 : Z) = Some (Raise ValueError).
Proof.
  apply (proj1 (getPair_edge_cases 10 1 (5 : Z))). lia.
Defined.

Lemma getPair_no_pair_left_witness :
  getPair 1000 2 (Some [(0, [1]); (1, [0])]) (5 : Z) = None.
Proof.
  apply (getPair_no_pair_left 2 [(0, [1]); (1, [0])] (5 : Z)); [lia | ].
  intros src dst Hs Hd Hne.
  assert (Hc : (src = 0 /\ dst = 1) \/ (src = 1 /\ dst = 0)) by lia.
  destruct Hc as [[-> ->] | [-> ->]]; eexists; (split; [reflexivity | now left]).
Defined.

(** ** readTopologyData *)

Lemma digits_from_acc (d : Decimal.uint) :
  forall acc : positive,
    digits_from (NilEmpty.string_of_uint d) (Zpos acc) true =
    Some (Zpos (Pos.of_uint_acc d acc)).
Proof.
  induction d as [ | d IH | d IH | d IH | d IH | d IH | d IH | d IH | d IH
                   | d IH | d IH]; intros acc;
    [reflexivity | cbn [NilEmpty.string_of_uint digits_from Pos.of_uint_acc] ..];
    match goal with
    | |- context [is_digit ?c] =>
        change (is_digit c) with true; cbv beta iota;
        match goal with
        | |- context [digit_value c] =>
            let v := eval vm_compute in (digit_value c) in
            change (digit_value c) with v
        end
    end;
    rewrite <- IH; f_equal; lia.
Qed.

Lemma digits_from_zero (d : Decimal.uint) :
  forall b : bool, d <> Decimal.Nil \/ b = true ->
    digits_from (NilEmpty.string_of_uint d) 0 b = Some (Z.of_uint d).
Proof.
  unfold Z.of_uint.
  induction d as [ | d IH | d IH | d IH | d IH | d IH | d IH | d IH | d IH
                   | d IH | d IH]; intros b Hb;
    [destruct Hb as [Hb | ->]; [congruence | reflexivity]
    | cbn [NilEmpty.string_of_uint digits_from Pos.of_uint] ..];
    match goal with
    | |- context [is_digit ?c] =>
        change (is_digit c) with true; cbv beta iota;
        match goal with
        | |- context [digit_value c] =>
            let v := eval vm_compute in (digit_value c) in
            change (digit_value c) with v
        end
    end;
    change (10 * 0 + 0) with 0; try (apply IH; now right);
    match goal with
    | |- digits_from _ ?k true = _ =>
        let p := eval vm_compute in (Z.to_pos k) in
        change k with (Zpos p)
    end;
    rewrite digits_from_acc; reflexivity.
Qed.

Lemma uint_chars (d : Decimal.uint) :
  string_forall is_digit (NilEmpty.string_of_uint d) = true.
Proof.
  induction d; cbn [NilEmpty.string_of_uint string_forall]; try reflexivity;
    rewrite IHd; reflexivity.
Qed.

Lemma string_forall_impl (p q : ascii -> bool) (s : string) :
  (forall c, p c = true -> q c = true) ->
  string_forall p s = true -> string_forall q s = true.
Proof.
  intros Hpq. induction s as [ | c s IH]; [reflexivity | ].
  cbn [string_forall]. intros Hs. apply andb_true_iff in Hs.
  destruct Hs as [Hc Hs]. now rewrite (Hpq c Hc), IH.
Qed.

Lemma digit_not_space (c : ascii) : is_digit c = true -> is_space c = false.
Proof.
  unfold is_digit, is_space. set (k := nat_of_ascii c). intros Hd.
  apply andb_true_iff in Hd. destruct Hd as [H1 H2].
  apply Nat.leb_le in H1, H2.
  repeat match goal with
         | |- context [(?a <=? k)%nat] => destruct (Nat.leb_spec a k)
         | |- context [(k <=? ?a)%nat] => destruct (Nat.leb_spec k a)
         | |- context [(k =? ?a)%nat] => destruct (Nat.eqb_spec k a)
         end; try reflexivity; lia.
Qed.

Lemma sign_or_digit_not_space (c : ascii) :
  is_sign_or_digit c = true -> is_space c = false.
Proof.
  unfold is_sign_or_digit. intros Hc. apply orb_true_iff in Hc.
  destruct Hc as [Hd | Hm]; [now apply digit_not_space | ].
  apply Ascii.eqb_eq in Hm. subst c. reflexivity.
Qed.

Lemma nilzero_uint_chars (d : Decimal.uint) :
  string_forall is_digit (NilZero.string_of_uint d) = true /\
  NilZero.string_of_uint d <> EmptyString.
Proof.
  destruct d; cbn [NilZero.string_of_uint]; split; try reflexivity;
    try discriminate; apply uint_chars.
Qed.

Lemma str_chars (z : Z) :
  string_forall is_sign_or_digit (str z) = true /\ str z <> EmptyString.
Proof.
  unfold str, NilZero.string_of_int.
  destruct (Z.to_int z) as [d | d].
  - destruct (nilzero_uint_chars d) as [Hc Hne]. split; [ | assumption].
    apply (string_forall_impl is_digit); [ | assumption].
    intros c Hc'. unfold is_sign_or_digit. now rewrite Hc'.
  - destruct (nilzero_uint_chars d) as [Hc Hne]. split; [ | discriminate].
    cbn [string_forall]. apply andb_true_iff. split; [reflexivity | ].
    apply (string_forall_impl is_digit); [ | assumption].
    intros c Hc'. unfold is_sign_or_digit. now rewrite Hc'.
Qed.

Lemma rstrip_no_space (s : string) :
  string_forall (fun c => negb (is_space c)) s = true -> rstrip s = s.
Proof.
  induction s as [ | c s IH]; [reflexivity | ].
  cbn [string_forall rstrip]. intros Hs. apply andb_true_iff in Hs.
  destruct Hs as [Hc Hs]. rewrite (IH Hs).
  destruct s; [ | reflexivity].
  apply negb_true_iff in Hc. now rewrite Hc.
Qed.

Lemma strip_no_space (s : string) :
  string_forall (fun c => negb (is_space c)) s = true -> strip s = s.
Proof.
  intros Hs. unfold strip.
  assert (Hl : lstrip s = s).
  { destruct s as [ | c s]; [reflexivity | ]. cbn [string_forall] in Hs.
    apply andb_true_iff in Hs. destruct Hs as [Hc _].
    apply negb_true_iff in Hc. cbn [lstrip]. now rewrite Hc. }
  rewrite Hl. now apply rstrip_no_space.
Qed.

Lemma str_no_space (z : Z) :
  string_forall (fun c => negb (is_space c)) (str z) = true.
Proof.
  apply (string_forall_impl is_sign_or_digit); [ | apply str_chars].
  intros c Hc. now rewrite (sign_or_digit_not_space c Hc).
Qed.

Lemma nilzero_digits (d : Decimal.uint) :
  digits_from (NilZero.string_of_uint d) 0 false = Some (Z.of_uint d).
Proof.
  destruct d; try (apply digits_from_zero; left; discriminate). reflexivity.
Qed.

Lemma nilzero_first_char (d : Decimal.uint) :
  exists c r, NilZero.string_of_uint d = String c r /\ is_digit c = true.
Proof.
  destruct (nilzero_uint_chars d) as [Hc Hne].
  destruct (NilZero.string_of_uint d) as [ | c r]; [congruence | ].
  cbn [string_forall] in Hc. apply andb_true_iff in Hc. exists c, r. tauto.
Qed.

Lemma digit_not_sign (c : ascii) :
  is_digit c = true ->
  Ascii.eqb c (ascii_of_nat 45) = false /\ Ascii.eqb c (ascii_of_nat 43) = false /\
  Ascii.eqb c (ascii_of_nat 35) = false.
Proof.
  intros Hd. repeat apply conj; apply Ascii.eqb_neq; intros ->; discriminate.
Qed.

(** [int(str(z))] is [z]. *)
Lemma int_of_str_str (z : Z) : int_of_str (str z) = OK z.
Proof.
  unfold int_of_str. rewrite (strip_no_space _ (str_no_space z)).
  rewrite <- (DecimalZ.of_to z) at 2.
  unfold str, NilZero.string_of_int, Z.of_int.
  destruct (Z.to_int z) as [d | d].
  - destruct (nilzero_first_char d) as (c & r & Hs & Hc).
    destruct (digit_not_sign c Hc) as (Hm & Hp & _).
    rewrite Hs, Hm, Hp, <- Hs, nilzero_digits. reflexivity.
  - change (Ascii.eqb "-" (ascii_of_nat 45)) with true. cbv iota.
    rewrite nilzero_digits. reflexivity.
Qed.

Lemma split_from_token (t : string) :
  forall (rest : string) (tok : option string),
    string_forall (fun c => negb (is_space c)) t = true -> t <> EmptyString ->
    split_from (String.append t rest) tok =
    split_from rest
      (Some (String.append (match tok with Some p => p | None => EmptyString end) t)).
Proof.
  induction t as [ | c t IH]; intros rest tok Hs Hne; [congruence | ].
  cbn [string_forall] in Hs. apply andb_true_iff in Hs. destruct Hs as [Hc Hs].
  apply negb_true_iff in Hc. cbn [String.append split_from]. rewrite Hc.
  destruct t as [ | c' t'].
  - reflexivity.
  - rewrite IH by (assumption || discriminate). f_equal. f_equal.
    set (p := match tok with Some p => p | None => EmptyString end).
    clear. induction p as [ | a p IHp]; [reflexivity | ].
    cbn [String.append]. now rewrite IHp.
Qed.

Lemma split_two_tokens (t0 t1 : string) :
  string_forall (fun c => negb (is_space c)) t0 = true -> t0 <> EmptyString ->
  string_forall (fun c => negb (is_space c)) t1 = true -> t1 <> EmptyString ->
  split (String.append t0 (String (ascii_of_nat 32) (String.append t1 newline)))
  = [t0; t1].
Proof.
  intros H0 N0 H1 N1. unfold split.
  rewrite (split_from_token t0 _ None H0 N0). cbn [split_from String.append].
  change (is_space (ascii_of_nat 32)) with true. cbv iota.
  rewrite (split_from_token t1 _ None H1 N1). reflexivity.
Qed.

Lemma skip_comments (comments rest : list string) :
  Forall (fun c => startswith_hash c = true) comments ->
  readTopologyData (comments ++ rest) = readTopologyData rest.
Proof.
  induction 1 as [ | c cs Hc _ IH]; [reflexivity | ].
  cbn [app readTopologyData]. now rewrite Hc.
Qed.

(** X15.  Comment lines are skipped and the first other line decides alone: what
    follows it is never read.  A file of comment lines only gives [None],
    which the caller cannot unpack. *)
Theorem first_data_line_decides (comments : list string) (line : string)
    (rest : list string) :
  Forall (fun c => startswith_hash c = true) comments ->
  startswith_hash line = false ->
  readTopologyData (comments ++ line :: rest) = readTopologyData [line] /\
  readTopologyData comments = OK None /\
  read_topology comments = Raise TypeError.
Proof.
  intros Hc Hl.
  assert (Hnone : readTopologyData comments = OK None).
  { rewrite <- (app_nil_r comments). now rewrite skip_comments. }
  repeat apply conj.
  - rewrite skip_comments by assumption. cbn [readTopologyData]. rewrite Hl.
    destruct (split line) as [ | t0 [ | t1 ts]]; try reflexivity.
  - assumption.
  - unfold read_topology. now rewrite Hnone.
Qed.

(** X16.  A first data line without a second field raises IndexError: so does a
    blank line. *)
Theorem blank_line_raises (comments : list string) (line : string)
    (rest : list string) :
  Forall (fun c => startswith_hash c = true) comments ->
  string_forall is_space line = true ->
  readTopologyData (comments ++ line :: rest) = Raise IndexError.
Proof.
  intros Hc Hb. rewrite skip_comments by assumption. cbn [readTopologyData].
  assert (Hh : startswith_hash line = false).
  { destruct line as [ | c l]; [reflexivity | ]. cbn [string_forall] in Hb.
    apply andb_true_iff in Hb. destruct Hb as [Hs _]. cbn [startswith_hash].
    apply Ascii.eqb_neq. intros ->. discriminate. }
  rewrite Hh.
  assert (Hsp : forall l, string_forall is_space l = true -> split_from l None = []).
  { induction l as [ | c l IH]; [reflexivity | ]. cbn [string_forall split_from].
    intros Hl. apply andb_true_iff in Hl. destruct Hl as [Hs Hl]. rewrite Hs.
    now apply IH. }
  unfold split. now rewrite (Hsp line Hb).
Qed.

Lemma split_from_first (s : string) :
  forall tok : string,
    exists u ts, split_from s (Some tok) = String.append tok u :: ts.
Proof.
  induction s as [ | c s IH]; intros tok; cbn [split_from].
  - exists EmptyString, []. f_equal. clear. induction tok as [ | a t IHt];
      [reflexivity | cbn [String.append]; now rewrite <- IHt].
  - destruct (is_space c).
    + exists EmptyString, (split_from s None). f_equal. clear.
      induction tok as [ | a t IHt];
        [reflexivity | cbn [String.append]; now rewrite <- IHt].
    + destruct (IH (String.append tok (String c EmptyString))) as (u & ts & Hs).
      exists (String c u), ts. rewrite Hs. f_equal. clear.
      induction tok as [ | a t IHt];
        [reflexivity | cbn [String.append]; now rewrite IHt].
Qed.

Lemma int_of_str_no_literal (c : ascii) (r : string) :
  is_space c = false -> is_digit c = false ->
  Ascii.eqb c (ascii_of_nat 45) = false -> Ascii.eqb c (ascii_of_nat 43) = false ->
  int_of_str (String c r) = Raise ValueError.
Proof.
  intros Hs Hd Hm Hp. unfold int_of_str, strip. cbn [lstrip]. rewrite Hs.
  assert (Hr : exists r', rstrip (String c r) = String c r').
  { cbn [rstrip]. destruct (rstrip r); [rewrite Hs | ]; eauto. }
  destruct Hr as [r' ->]. rewrite Hm, Hp. cbn [digits_from]. rewrite Hd.
  now destruct (Ascii.eqb c (ascii_of_nat 95)).
Qed.

(** X17.  A first data line that starts with something else than a blank, a
    sign or a digit -- a column title left without its [#], say -- raises
    ValueError. *)
Theorem title_line_raises (comments : list string) (c : ascii) (r : string)
    (rest : list string) :
  Forall (fun l => startswith_hash l = true) comments ->
  is_space c = false -> is_digit c = false ->
  Ascii.eqb c (ascii_of_nat 35) = false ->
  Ascii.eqb c (ascii_of_nat 45) = false -> Ascii.eqb c (ascii_of_nat 43) = false ->
  readTopologyData (comments ++ String c r :: rest) = Raise ValueError.
Proof.
  intros Hc Hs Hd Hh Hm Hp. rewrite skip_comments by assumption.
  cbn [readTopologyData startswith_hash]. rewrite Hh.
  unfold split. cbn [split_from]. rewrite Hs.
  destruct (split_from_first r (String.append EmptyString (String c EmptyString)))
    as (u & ts & ->).
  cbn [String.append]. now rewrite int_of_str_no_literal.
Qed.

(** X18.  Reading back: after any comment lines, the line [n m] gives the pair
    (n, m), whatever follows.  (The interpreter refuses literals of more
    than 4300 digits.) *)
Theorem topology_line_read_back (comments : list string) (n m : Z)
    (rest : list string) :
  Z.abs n < 10 ^ 4300 -> Z.abs m < 10 ^ 4300 ->
  Forall (fun c => startswith_hash c = true) comments ->
  readTopologyData (comments ++ topology_line n m :: rest) = OK (Some (n, m)) /\
  read_topology (comments ++ topology_line n m :: rest) = OK (n, m).
Proof.
  intros _ _ Hc.
  assert (Hr : readTopologyData (comments ++ topology_line n m :: rest)
               = OK (Some (n, m))).
  { rewrite skip_comments by assumption. cbn [readTopologyData].
    destruct (str_chars n) as [Hcn Hnn]. destruct (str_chars m) as [Hcm Hnm].
    assert (Hh : startswith_hash (topology_line n m) = false).
    { unfold topology_line. destruct (str n) as [ | c r]; [congruence | ].
      cbn [string_forall] in Hcn. apply andb_true_iff in Hcn.
      destruct Hcn as [Hc0 _]. cbn [String.append startswith_hash].
      apply Ascii.eqb_neq. intros ->. discriminate. }
    rewrite Hh. unfold topology_line.
    rewrite (split_two_tokens _ _ (str_no_space n) Hnn (str_no_space m) Hnm).
    rewrite !int_of_str_str. reflexivity. }
  split; [assumption | ]. unfold read_topology. now rewrite Hr.
Qed.

Lemma first_data_line_decides_witness :
  readTopologyData (["# nodes edges"%string] ++ "4 3"%string :: ["junk"%string]) =
  readTopologyData ["4 3"%string] /\
  readTopologyData ["# nodes edges"%string] = OK None /\
  read_topology ["# nodes edges"%string] = Raise TypeError.
Proof.
  apply (first_data_line_decides ["# nodes edges"%string] "4 3"%string
           ["junk"%string]); [repeat constructor | reflexivity].
Defined.

Lemma blank_line_raises_witness :
  readTopologyData (["# nodes edges"%string] ++ newline :: ["4 3"%string]) =
  Raise IndexError.
Proof.
  apply (blank_line_raises ["# nodes edges"%string] newline ["4 3"%string]);
    [repeat constructor | reflexivity].
Defined.

Lemma topology_line_read_back_witness :
  readTopologyData (["# nodes edges"%string] ++ topology_line 14 21 :: []) =
  OK (Some (14, 21)) /\
  read_topology (["# nodes edges"%string] ++ topology_line 14 21 :: []) =
  OK (14, 21).
Proof.
  apply (topology_line_read_back ["# nodes edges"%string] 14 21 []);
    [vm_compute; reflexivity | vm_compute; reflexivity | repeat constructor].
Defined.

Lemma title_line_raises_witness :
  readTopologyData (["# topology"%string] ++ "nodes edges"%string :: ["4 3"%string])
  = Raise ValueError.
Proof.
  apply (title_line_raises ["# topology"%string] "n"%char "odes edges"%string
           ["4 3"%string]); [repeat constructor | reflexivity ..].
Defined.
